(** * pgcacher, package pcstats: the page-cache status pipeline

    A shallow embedding of [pkg/pcstats/pcstatus.go] and the properties of
    [GetPcStatus].  The Go code is a straight-line pipeline of operating
    system calls; it is embedded in a state monad over an arbitrary kernel
    state, and every call it makes is appended to a trace, so that "which
    calls ran, on which handle, in which order" can be stated and proved. *)

From Stdlib Require Import ZArith List String Bool Lia.
From Stdlib Require Import Floats.SpecFloat.
From Stdlib Require Import Reals Lra.
Import ListNotations.

Local Open Scope string_scope.
Local Open Scope list_scope.
Local Open Scope Z_scope.

(** ** Go's [int]

    The request code [BLKGETSIZE64 = 0x80081272] carries the size of its
    argument, 8 bytes, in bits 16 to 29: the package is written for 64-bit
    Linux, where [int] is 64 bits wide.  A conversion [int(x)] keeps the low
    64 bits of [x] and [+] wraps around. *)
Module goint.

Definition bits : Z := 64.
Definition modulus : Z := 2 ^ bits.
Definition half : Z := 2 ^ (bits - 1).
Definition min_int : Z := - half.
Definition max_int : Z := half - 1.

(** Two's complement reading of the low 64 bits. *)
Definition wrap (x : Z) : Z := (x + half) mod modulus - half.

(** [int(x)] for an integer [x] of any integer type. *)
Definition of_Z (x : Z) : Z := wrap x.

(** [a + b] on [int]. *)
Definition add (a b : Z) : Z := wrap (a + b).

Definition in_range (x : Z) : Prop := min_int <= x <= max_int.

End goint.

(** ** Go's [float64]: IEEE 754 binary64, rounding to nearest even *)
Module float64.

Definition prec : Z := 53.
Definition emax : Z := 1024.

Definition t : Type := spec_float.

(** The zero value of a [float64] variable. *)
Definition zero : t := S754_zero false.

(** [float64(n)] for an integer [n]. *)
Definition of_int (n : Z) : t := binary_normalize prec emax n 0 false.

Definition div (x y : t) : t := SFdiv prec emax x y.
Definition mul (x y : t) : t := SFmul prec emax x y.

Definition leb (x y : t) : bool := SFleb x y.

Definition is_nan (x : t) : bool :=
  match x with S754_nan => true | _ => false end.

(** [2 ^ e] as a real number, for any integer [e]. *)
Definition bpow (e : Z) : R := powerRZ 2 e.

(** The real number a finite [float64] stands for (0 for the others). *)
Definition to_R (x : t) : R :=
  match x with
  | S754_finite s m e => (IZR (cond_Zopp s (Zpos m)) * bpow e)%R
  | _ => 0%R
  end.

End float64.

(** ** Rounding to nearest, ties to even: the specification side

    The operations above are the algorithms of [SpecFloat]; what they
    compute is described here over the integers.  A positive quantity is
    given as [N / D * 2 ^ ex]. *)

(** The quotient [N / D] with what is left of it, as a shift record: the
    rounding bit says "at least half", the sticky bit "not exactly zero or
    half". *)
Definition located (N D : Z) (mrs : shr_record) : Prop :=
  0 < D /\ 0 <= N
  /\ shr_m mrs = N / D
  /\ shr_r mrs = (D <=? 2 * (N mod D))
  /\ shr_s mrs = negb (N mod D =? 0) && negb (2 * (N mod D) =? D).

(** Where [N / D] lies between [N / D] rounded down and the next integer. *)
Definition loc_of (N D : Z) : location :=
  if N mod D =? 0 then loc_Exact else loc_Inexact (2 * (N mod D) ?= D).

(** [N / D] rounded to the nearest integer, ties to even. *)
Definition rne (N D : Z) : Z :=
  let q := N / D in
  match 2 * (N mod D) ?= D with
  | Lt => q
  | Eq => if Z.even q then q else q + 1
  | Gt => q + 1
  end.

(** A rounded mantissa that reached [2 ^ 53] is renormalised. *)
Definition canon (R e : Z) : Z * Z :=
  if R <? 2 ^ 53 then (R, e) else (2 ^ 52, e + 1).

(** [N / D * 2 ^ ex] rounded to 53 bits: mantissa and exponent. *)
Definition rounded (N D ex : Z) : Z * Z :=
  let n := Zdigits2 (N / D) - 53 in
  canon (rne N (D * 2 ^ n)) (ex + n).

Definition finite_pos (me : Z * Z) : float64.t :=
  S754_finite false (Z.to_pos (fst me)) (snd me).

(** A mantissa of exactly 53 bits. *)
Definition canonical (m : positive) : Prop := 2 ^ 52 <= Zpos m < 2 ^ 53.

(** What an operation returns on positive arguments: a finite positive
    number with a full mantissa and an exponent in [elo .. ehi], within one
    rounding of the exact result [X], and not above any float that [X] is
    not above. *)
Definition correctly_rounded (X : R) (f : float64.t) (elo ehi : Z) : Prop :=
  exists m e,
    f = S754_finite false m e /\ canonical m /\ elo <= e <= ehi
    /\ (Rabs (IZR (Zpos m) * float64.bpow e - X)
        <= X * float64.bpow (-53))%R
    /\ forall mb eb, 2 ^ 52 <= mb < 2 ^ 53 ->
         (X <= IZR mb * float64.bpow eb)%R ->
         (IZR (Zpos m) * float64.bpow e <= IZR mb * float64.bpow eb)%R.

(** [(float64(c) / float64(p)) * 100.00], the expression of [Percent]. *)
Definition percent (c p : Z) : float64.t :=
  float64.mul (float64.div (float64.of_int c) (float64.of_int p))
              (float64.of_int 100).

(** ** Values exchanged with the operating system *)

(** A Go [error] value.  [fmt_Errorf format arg] is the value built by
    [fmt.Errorf(format, arg)] with a single [%v] verb: a fresh error whose
    text is [format] with the text of [arg] spliced in. *)
Inductive error : Type :=
| Errno (code : Z)
| PathError (op path : string) (code : Z)
| errors_New (text : string)
| fmt_Errorf (format : string) (arg : error)
| OtherError (text : string).

(** [time.Time], as an offset from the zero [Time]. *)
Definition Time : Type := Z.

Module os.

(** [*os.File]: the open handle, identified by its descriptor. *)
Record File : Type := mkFile { Fd : Z }.

(** [os.FileMode] bits. *)
Definition ModeDir : Z := Z.shiftl 1 31.
Definition ModeDevice : Z := Z.shiftl 1 26.
Definition ModeCharDevice : Z := Z.shiftl 1 21.

(** [os.FileInfo], reduced to the methods the package calls. *)
Record FileInfo : Type := mkFileInfo {
  Mode : Z;
  Size : Z;
  ModTime : Time
}.

Definition IsDir (fi : FileInfo) : bool :=
  negb (Z.land (Mode fi) ModeDir =? 0).

End os.

(** The report of the residency provider: [Mincore{Cached, Miss}]. *)
Record Mincore : Type := mkMincore {
  mc_Cached : Z;
  mc_Miss : Z
}.

(** page cache status *)
Record PcStatus : Type := mkPcStatus {
  Name : string;
  Size : Z;
  Timestamp : Time;
  Mtime : Time;
  Pages : Z;
  Cached : Z;
  Uncached : Z;
  Percent : float64.t
}.

(** [PcStatus{Name: fname}]: every other field at its zero value. *)
Definition PcStatus_named (fname : string) : PcStatus :=
  {| Name := fname; Size := 0; Timestamp := 0; Mtime := 0;
     Pages := 0; Cached := 0; Uncached := 0; Percent := float64.zero |}.

Definition set_Size (pcs : PcStatus) (v : Z) : PcStatus :=
  {| Name := Name pcs; Size := v; Timestamp := Timestamp pcs;
     Mtime := Mtime pcs; Pages := Pages pcs; Cached := Cached pcs;
     Uncached := Uncached pcs; Percent := Percent pcs |}.

Definition set_Timestamp (pcs : PcStatus) (v : Time) : PcStatus :=
  {| Name := Name pcs; Size := Size pcs; Timestamp := v;
     Mtime := Mtime pcs; Pages := Pages pcs; Cached := Cached pcs;
     Uncached := Uncached pcs; Percent := Percent pcs |}.

Definition set_Mtime (pcs : PcStatus) (v : Time) : PcStatus :=
  {| Name := Name pcs; Size := Size pcs; Timestamp := Timestamp pcs;
     Mtime := v; Pages := Pages pcs; Cached := Cached pcs;
     Uncached := Uncached pcs; Percent := Percent pcs |}.

Definition set_Pages (pcs : PcStatus) (v : Z) : PcStatus :=
  {| Name := Name pcs; Size := Size pcs; Timestamp := Timestamp pcs;
     Mtime := Mtime pcs; Pages := v; Cached := Cached pcs;
     Uncached := Uncached pcs; Percent := Percent pcs |}.

Definition set_Cached (pcs : PcStatus) (v : Z) : PcStatus :=
  {| Name := Name pcs; Size := Size pcs; Timestamp := Timestamp pcs;
     Mtime := Mtime pcs; Pages := Pages pcs; Cached := v;
     Uncached := Uncached pcs; Percent := Percent pcs |}.

Definition set_Uncached (pcs : PcStatus) (v : Z) : PcStatus :=
  {| Name := Name pcs; Size := Size pcs; Timestamp := Timestamp pcs;
     Mtime := Mtime pcs; Pages := Pages pcs; Cached := Cached pcs;
     Uncached := v; Percent := Percent pcs |}.

Definition set_Percent (pcs : PcStatus) (v : float64.t) : PcStatus :=
  {| Name := Name pcs; Size := Size pcs; Timestamp := Timestamp pcs;
     Mtime := Mtime pcs; Pages := Pages pcs; Cached := Cached pcs;
     Uncached := Uncached pcs; Percent := v |}.

Definition BLKGETSIZE64 : Z := 0x80081272.

(** [mode&os.ModeDevice != 0 && mode&os.ModeCharDevice == 0] *)
Definition block_device_mode (mode : Z) : bool :=
  negb (Z.land mode os.ModeDevice =? 0)
  && (Z.land mode os.ModeCharDevice =? 0).

(** ** The calls the pipeline makes, and their trace *)

(** One entry per call, with its arguments and what it returned. *)
Inductive Event : Type :=
| EvOpen (name : string) (r : os.File + error)
| EvClose (f : os.File) (r : option error)
| EvFilter (f : os.File) (r : option error)
| EvFileStat (f : os.File) (r : os.FileInfo + error)
| EvStat (name : string) (r : os.FileInfo + error)
| EvIoctl (f : os.File) (req : Z) (size : Z) (errno : Z)
| EvNow (t : Time)
| EvMincore (f : os.File) (size : Z) (r : option Mincore * option error).

(** The operating system seen from the package: each call reads and changes
    the kernel state [W] and returns its result.  [sys_ioctl f req] returns
    what the call left in the [int64] its third argument points to, and the
    errno. *)
Record Sys (W : Type) : Type := mkSys {
  os_Open : string -> W -> (os.File + error) * W;
  os_Stat : string -> W -> (os.FileInfo + error) * W;
  File_Stat : os.File -> W -> (os.FileInfo + error) * W;
  File_Close : os.File -> W -> option error * W;
  sys_ioctl : os.File -> Z -> W -> (Z * Z) * W;
  time_Now : W -> Time * W
}.

Arguments os_Open {W} _ _ _.
Arguments os_Stat {W} _ _ _.
Arguments File_Stat {W} _ _ _.
Arguments File_Close {W} _ _ _.
Arguments sys_ioctl {W} _ _ _ _.
Arguments time_Now {W} _ _.

(** A computation over the kernel state and the trace so far. *)
Definition M (W A : Type) : Type := W * list Event -> A * (W * list Event).

Definition ret {W A : Type} (a : A) : M W A := fun s => (a, s).

Definition bind {W A B : Type} (m : M W A) (k : A -> M W B) : M W B :=
  fun s => let (a, s') := m s in k a s'.

(** Perform one call [h] and log it as [ev]. *)
Definition call {W R : Type} (h : W -> R * W) (ev : R -> Event) : M W R :=
  fun s => let (r, w') := h (fst s) in (r, (w', snd s ++ [ev r])).

(** [defer cleanup] followed by [body]: the cleanup runs when the body has
    produced the function's results, and what it returns is dropped. *)
Definition defer {W A C : Type} (cleanup : M W C) (body : M W A) : M W A :=
  bind body (fun a => bind cleanup (fun _ => ret a)).

Declare Scope go_scope.
Delimit Scope go_scope with go.
Notation "x <- m ;; k" := (bind m (fun x => k))
  (at level 61, m at next level, right associativity) : go_scope.
Notation "' p <- m ;; k" := (bind m (fun x => let 'p := x in k))
  (at level 61, p pattern, m at next level, right associativity) : go_scope.

(** ** The package *)
Section Pcstats.

Context {W : Type}.
Variable sys : Sys W.

(** [GetFileMincore], the residency provider of the package: it lives in
    another file; the pipeline is stated over any provider. *)
Variable GetFileMincore :
  os.File -> Z -> W -> (option Mincore * option error) * W.

Local Open Scope go_scope.

Definition _isBlockDevice (path : string) : M W (bool * option error) :=
  r <- call (os_Stat sys path) (EvStat path) ;;
  match r with
  | inr err => ret (false, Some err)
  | inl info =>
      let mode := os.Mode info in
      ret (block_device_mode mode, None)
  end.

Definition getBlockDeviceSize (path : string) : M W (Z * option error) :=
  r <- call (os_Open sys path) (EvOpen path) ;;
  match r with
  | inr err => ret (0, Some err)
  | inl file =>
      defer (call (File_Close sys file) (EvClose file))
        ('(size, errno) <-
            call (sys_ioctl sys file BLKGETSIZE64)
                 (fun r => EvIoctl file BLKGETSIZE64 (fst r) (snd r)) ;;
         if negb (errno =? 0) then ret (0, Some (Errno errno))
         else ret (size, None))
  end.

(** The last four statements of [GetPcStatus]. *)
Definition aggregate (pcs : PcStatus) (mincore : Mincore) : PcStatus :=
  let pcs := set_Cached pcs (goint.of_Z (mc_Cached mincore)) in
  let pcs := set_Pages pcs (goint.add (goint.of_Z (mc_Cached mincore))
                                      (goint.of_Z (mc_Miss mincore))) in
  let pcs := set_Uncached pcs (goint.of_Z (mc_Miss mincore)) in
  set_Percent pcs
    (float64.mul (float64.div (float64.of_int (Cached pcs))
                              (float64.of_int (Pages pcs)))
                 (float64.of_int 100)).

Definition GetPcStatus (fname : string)
    (filter : os.File -> W -> option error * W)
    : M W (PcStatus * option error) :=
  let pcs := PcStatus_named fname in
  r <- call (os_Open sys fname) (EvOpen fname) ;;
  match r with
  | inr err =>
      ret (pcs, Some (fmt_Errorf "could not open file for read: %v" err))
  | inl f =>
    defer (call (File_Close sys f) (EvClose f))
     (e <- call (filter f) (EvFilter f) ;;
      match e with
      | Some err => ret (pcs, Some err)
      | None =>
      r <- call (File_Stat sys f) (EvFileStat f) ;;
      match r with
      | inr err => ret (pcs, Some (fmt_Errorf "could not stat file: %v" err))
      | inl finfo =>
      if os.IsDir finfo
      then ret (pcs, Some (errors_New "file is a directory")) else
      '(isBlock, err) <- _isBlockDevice fname ;;
      match err with
      | Some err => ret (pcs, Some err)
      | None =>
      '(size, err) <- (if isBlock : bool then getBlockDeviceSize fname
                       else ret (os.Size finfo, None)) ;;
      let pcs := set_Size pcs size in
      match err with
      | Some err => ret (pcs, Some err)
      | None =>
      now <- call (time_Now sys) EvNow ;;
      let pcs := set_Timestamp pcs now in
      let pcs := set_Mtime pcs (os.ModTime finfo) in
      '(mincore, err) <- call (GetFileMincore f (Size pcs))
                           (EvMincore f (Size pcs)) ;;
      match err with
      | Some err => ret (pcs, Some err)
      | None =>
      match mincore with
      | None => ret (pcs, None)
      | Some mincore => ret (aggregate pcs mincore, None)
      end end end end end end)
  end.

(** A whole call, from an empty trace. *)
Definition run (fname : string) (filter : os.File -> W -> option error * W)
    (w : W) : (PcStatus * option error) * (W * list Event) :=
  GetPcStatus fname filter (w, []).

End Pcstats.

Arguments _isBlockDevice {W} sys path _.
Arguments getBlockDeviceSize {W} sys path _.
Arguments GetPcStatus {W} sys GetFileMincore fname filter _.
Arguments run {W} sys GetFileMincore fname filter w.

(** Modelled from the spec: the Page Residency Provider ([GetFileMincore],
    whose source file is not part of the sources read here).  "When N == 0,
    the provider yields no residency data": for a byte length of zero the
    report is absent and there is no error. *)
Definition provider_skips_empty {W : Type}
    (provider : os.File -> Z -> W -> (option Mincore * option error) * W)
    : Prop :=
  forall f w, fst (provider f 0 w) = (None, None).

(** [Percent] read as the exact quotient: the real number the field stands
    for is [100 * Cached / Pages]. *)
Definition percent_is_exact (pcs : PcStatus) : Prop :=
  float64.to_R (Percent pcs)
  = (100 * IZR (Cached pcs) / IZR (Pages pcs))%R.

(** The calls that resolve the size or probe residency: everything the
    pipeline does after the directory check. *)
Definition after_directory_check (ev : Event) : bool :=
  match ev with
  | EvStat _ _ | EvIoctl _ _ _ _ | EvNow _ | EvMincore _ _ _ => true
  | EvOpen _ _ | EvClose _ _ | EvFilter _ _ | EvFileStat _ _ => false
  end.

Definition is_open_event (ev : Event) : bool :=
  match ev with EvOpen _ _ => true | _ => false end.

(** The reading of the device-size query "against the open handle acquired
    at pipeline start": every ioctl in the trace is on the handle returned by
    the first call, and the target is opened once. *)
Definition query_on_pipeline_handle (tr : list Event) : Prop :=
  forall name f, hd_error tr = Some (EvOpen name (inl f)) ->
    (forall g req size errno, In (EvIoctl g req size errno) tr -> g = f)
    /\ List.length (List.filter is_open_event tr) = 1%nat.

(** ** A small kernel to run the pipeline on

    Paths name nodes; a node has a mode, a stat size, a modification time,
    the capacity its block-size ioctl reports, and one residency bit per
    page.  Descriptors are handed out in increasing order. *)
Module sim.

Record Node : Type := mkNode {
  nd_mode : Z;
  nd_size : Z;
  nd_mtime : Time;
  nd_capacity : Z;
  nd_resident : list bool
}.

Record World : Type := mkWorld {
  files : list (string * Node);
  fds : list (Z * string);
  next_fd : Z;
  clock : Time
}.

Definition ENOENT : Z := 2.
Definition EBADF : Z := 9.
Definition ENOTTY : Z := 25.
Definition pagesize : Z := 4096.

Fixpoint lookup {A : Type} (eqb : A -> A -> bool) {B : Type}
    (k : A) (l : list (A * B)) : option B :=
  match l with
  | [] => None
  | (k', v) :: l' => if eqb k k' then Some v else lookup eqb k l'
  end.

Definition node_of (f : os.File) (w : World) : option Node :=
  match lookup Z.eqb (os.Fd f) (fds w) with
  | Some path => lookup String.eqb path (files w)
  | None => None
  end.

Definition info_of (n : Node) : os.FileInfo :=
  os.mkFileInfo (nd_mode n) (nd_size n) (nd_mtime n).

Definition Open (path : string) (w : World) : (os.File + error) * World :=
  match lookup String.eqb path (files w) with
  | None => (inr (PathError "open" path ENOENT), w)
  | Some _ =>
      (inl (os.mkFile (next_fd w)),
       mkWorld (files w) ((next_fd w, path) :: fds w) (next_fd w + 1)
               (clock w))
  end.

Definition Stat (path : string) (w : World)
    : (os.FileInfo + error) * World :=
  match lookup String.eqb path (files w) with
  | None => (inr (PathError "stat" path ENOENT), w)
  | Some n => (inl (info_of n), w)
  end.

Definition FStat (f : os.File) (w : World)
    : (os.FileInfo + error) * World :=
  match node_of f w with
  | None => (inr (PathError "stat" "" EBADF), w)
  | Some n => (inl (info_of n), w)
  end.

Definition is_open (f : os.File) (w : World) : bool :=
  existsb (fun e => fst e =? os.Fd f) (fds w).

Definition Close (f : os.File) (w : World) : option error * World :=
  (if is_open f w then None else Some (PathError "close" "" EBADF),
   mkWorld (files w)
           (List.filter (fun e => negb (fst e =? os.Fd f)) (fds w))
           (next_fd w) (clock w)).

Definition Ioctl (f : os.File) (req : Z) (w : World) : (Z * Z) * World :=
  match node_of f w with
  | None => ((0, EBADF), w)
  | Some n =>
      if (req =? BLKGETSIZE64) && block_device_mode (nd_mode n)
      then ((nd_capacity n, 0), w)
      else ((0, ENOTTY), w)
  end.

Definition Now (w : World) : Time * World :=
  (clock w, mkWorld (files w) (fds w) (next_fd w) (clock w + 1)).

Definition kernel : Sys World :=
  mkSys World Open Stat FStat Close Ioctl Now.

(** The residency bits of the first [n] pages; pages past the recorded
    ones are not resident. *)
Fixpoint page_bits (n : nat) (resident : list bool) : list bool :=
  match n with
  | O => []
  | S n' =>
      match resident with
      | [] => false :: page_bits n' []
      | b :: bs => b :: page_bits n' bs
      end
  end.

(** Modelled from the spec: the Page Residency Provider.  For a byte
    length [N] it reports counts [{Cached: c, Miss: m}] with [c + m] the
    number of pages needed to cover [N] bytes; for [N == 0] it yields
    nothing and no error; it fails on a handle that is not open. *)
Definition GetFileMincore (f : os.File) (size : Z) (w : World)
    : (option Mincore * option error) * World :=
  if size =? 0 then ((None, None), w)
  else
    match node_of f w with
    | None => ((None, Some (OtherError "could not mmap")), w)
    | Some n =>
        let pages := (size + pagesize - 1) / pagesize in
        let vec := page_bits (Z.to_nat pages) (nd_resident n) in
        let cached := Z.of_nat (List.length (List.filter (fun b => b) vec)) in
        ((Some (mkMincore cached (pages - cached)), None), w)
    end.

Definition accept (f : os.File) (w : World) : option error * World :=
  (None, w).

Definition reject (f : os.File) (w : World) : option error * World :=
  (Some (OtherError "rejected by policy"), w).

Definition regular (size : Z) (resident : list bool) : Node :=
  mkNode 420 size 1700000000 0 resident.

Definition directory : Node :=
  mkNode (Z.lor os.ModeDir 493) 4096 1700000000 0 [].

Definition block_device (capacity : Z) : Node :=
  mkNode (Z.lor os.ModeDevice 432) 0 1700000000 capacity [].

(** A machine with descriptors 0 to 2 taken. *)
Definition boot (files : list (string * Node)) : World :=
  mkWorld files [] 3 1700000100.

Definition disk : World :=
  boot [ ("/data/hot", regular 8192 [true; true]);
         ("/data/warm", regular 8192 [true; false]);
         ("/data/odd", regular 409600 (true :: true :: true :: true :: true
                                        :: true :: true :: []));
         ("/data/empty", regular 0 []);
         ("/data", directory);
         ("/dev/sdb", block_device 1048576) ].

Definition probe (fname : string)
    (filter : os.File -> World -> option error * World) :=
  run kernel GetFileMincore fname filter disk.

(** The record, the error, the kernel state and the trace of a probe. *)
Definition record fname filter : PcStatus := fst (fst (probe fname filter)).
Definition failure fname filter : option error :=
  snd (fst (probe fname filter)).
Definition final fname filter : World := fst (snd (probe fname filter)).
Definition trace fname filter : list Event :=
  snd (snd (probe fname filter)).

End sim.

(** ** Reading a trace *)

Definition is_close_event (ev : Event) : bool :=
  match ev with EvClose _ _ => true | _ => false end.

Definition is_filter_event (ev : Event) : bool :=
  match ev with EvFilter _ _ => true | _ => false end.

Definition is_file_stat_event (ev : Event) : bool :=
  match ev with EvFileStat _ _ => true | _ => false end.

Definition is_stat_event (ev : Event) : bool :=
  match ev with EvStat _ _ => true | _ => false end.

Definition is_ioctl_event (ev : Event) : bool :=
  match ev with EvIoctl _ _ _ _ => true | _ => false end.

Definition is_now_event (ev : Event) : bool :=
  match ev with EvNow _ => true | _ => false end.

Definition is_mincore_event (ev : Event) : bool :=
  match ev with EvMincore _ _ _ => true | _ => false end.

(** How many calls of one kind a trace holds. *)
Definition calls (kind : Event -> bool) (tr : list Event) : nat :=
  List.length (List.filter kind tr).

Definition File_eqb (f g : os.File) : bool := os.Fd f =? os.Fd g.

(** The handles held after a trace, most recent first, starting from
    [stack]: a successful open pushes its handle, a close must release the
    most recent one, and every other call on a handle must find it held.
    [None] when the trace breaks that discipline. *)
Fixpoint held (stack : list os.File) (tr : list Event)
    : option (list os.File) :=
  match tr with
  | [] => Some stack
  | EvOpen _ (inl h) :: tr' => held (h :: stack) tr'
  | EvClose h _ :: tr' =>
      match stack with
      | top :: below => if File_eqb h top then held below tr' else None
      | [] => None
      end
  | EvFilter h _ :: tr' | EvFileStat h _ :: tr' | EvIoctl h _ _ _ :: tr'
  | EvMincore h _ _ :: tr' =>
      if existsb (File_eqb h) stack then held stack tr' else None
  | _ :: tr' => held stack tr'
  end.

(** ** A kernel that answers from a script

    Every call returns the answer written down for it, whatever its
    arguments; the state counts the opens, so that the first open and the
    one made for the device size can be answered differently. *)
Module script.

Record Answers : Type := mkAnswers {
  open_first : os.File + error;
  verdict : option error;
  fstat : os.FileInfo + error;
  stat : os.FileInfo + error;
  open_again : os.File + error;
  ioctl : Z * Z;
  now : Time;
  mincore : option Mincore * option error;
  close : option error
}.

Definition kernel (a : Answers) : Sys nat :=
  mkSys nat
    (fun _ n => (if Nat.eqb n 0 then open_first a else open_again a, S n))
    (fun _ n => (stat a, n))
    (fun _ n => (fstat a, n))
    (fun _ n => (close a, n))
    (fun _ _ n => (ioctl a, n))
    (fun n => (now a, n)).

Definition provider (a : Answers) (f : os.File) (size : Z) (n : nat)
    : (option Mincore * option error) * nat :=
  (mincore a, n).

Definition filter (a : Answers) (f : os.File) (n : nat)
    : option error * nat :=
  (verdict a, n).

Definition probe (a : Answers) :=
  run (kernel a) (provider a) "/dev/sdb" (filter a) 0%nat.

Definition record a : PcStatus := fst (fst (probe a)).
Definition failure a : option error := snd (fst (probe a)).
Definition final a : nat := fst (snd (probe a)).
Definition trace a : list Event := snd (snd (probe a)).

Definition EIO : Z := 5.
Definition ENOENT : Z := 2.
Definition ENOTTY : Z := 25.
Definition EMFILE : Z := 24.

Definition regular_info : os.FileInfo := os.mkFileInfo 420 8192 1700000000.

Definition device_info : os.FileInfo :=
  os.mkFileInfo (Z.lor os.ModeDevice 432) 0 1700000000.

Definition char_device_info : os.FileInfo :=
  os.mkFileInfo (Z.lor (Z.lor os.ModeDevice os.ModeCharDevice) 432) 0
                1700000000.

Definition directory_info : os.FileInfo :=
  os.mkFileInfo (Z.lor os.ModeDir 493) 4096 1700000001.

(** A regular 8192-byte file with both pages resident; the other scripts
    change one answer of this one. *)
Definition healthy : Answers :=
  mkAnswers (inl (os.mkFile 3)) None (inl regular_info) (inl regular_info)
            (inl (os.mkFile 4)) (0, ENOTTY) 1700000100
            (Some (mkMincore 2 0), None) None.

Definition with_open_first (a : Answers) (r : os.File + error) : Answers :=
  mkAnswers r (verdict a) (fstat a) (stat a) (open_again a) (ioctl a)
            (now a) (mincore a) (close a).

Definition with_fstat (a : Answers) (r : os.FileInfo + error) : Answers :=
  mkAnswers (open_first a) (verdict a) r (stat a) (open_again a) (ioctl a)
            (now a) (mincore a) (close a).

Definition with_stat (a : Answers) (r : os.FileInfo + error) : Answers :=
  mkAnswers (open_first a) (verdict a) (fstat a) r (open_again a) (ioctl a)
            (now a) (mincore a) (close a).

Definition with_open_again (a : Answers) (r : os.File + error) : Answers :=
  mkAnswers (open_first a) (verdict a) (fstat a) (stat a) r (ioctl a)
            (now a) (mincore a) (close a).

Definition with_ioctl (a : Answers) (r : Z * Z) : Answers :=
  mkAnswers (open_first a) (verdict a) (fstat a) (stat a) (open_again a) r
            (now a) (mincore a) (close a).

Definition with_mincore (a : Answers)
    (r : option Mincore * option error) : Answers :=
  mkAnswers (open_first a) (verdict a) (fstat a) (stat a) (open_again a)
            (ioctl a) (now a) r (close a).

(** A block device of 1,048,576 bytes. *)
Definition device : Answers :=
  with_mincore
    (with_ioctl (with_stat (with_fstat healthy (inl device_info))
                           (inl device_info))
                (1048576, 0))
    (Some (mkMincore 0 256), None).

End script.

(** * Properties *)

(** ** Case analysis of a call *)

Ltac unfold_pipeline :=
  unfold run, GetPcStatus, getBlockDeviceSize, _isBlockDevice,
         defer, bind, call, ret in *;
  cbn [fst snd app] in *.

Ltac simpl_record :=
  cbn [Name Size Timestamp Mtime Pages Cached Uncached Percent
       set_Size set_Timestamp set_Mtime set_Pages set_Cached set_Uncached
       set_Percent aggregate PcStatus_named] in *.

(** Split the hypothesis [H : GetPcStatus ... = ...] along every result the
    kernel, the filter and the provider can return. *)
Ltac split_on_results H :=
  repeat match type of H with
         | context [match ?x with _ => _ end] =>
             lazymatch x with
             | context [match _ with _ => _ end] => fail
             | _ => destruct x eqn:?; cbn [fst snd app] in H
             end
         end;
  inversion H; subst; clear H; simpl_record.

(** Split [H : In ev tr] for a trace [tr] that is an explicit list. *)
Ltac split_membership H :=
  cbn [In] in H;
  repeat (destruct H as [H | H]);
  try discriminate H; try contradiction;
  try (inversion H; subst; clear H).

Lemma wrap_in_range (x : Z) : goint.in_range x -> goint.wrap x = x.
Proof.
  unfold goint.in_range, goint.wrap, goint.min_int, goint.max_int.
  intros Hx. rewrite Z.mod_small; [ lia | ].
  change goint.modulus with (2 * goint.half). lia.
Qed.

Lemma wrap_range (x : Z) : goint.in_range (goint.wrap x).
Proof.
  unfold goint.in_range, goint.wrap, goint.min_int, goint.max_int.
  assert (H : 0 <= (x + goint.half) mod goint.modulus < goint.modulus)
    by (apply Z.mod_pos_bound; reflexivity).
  change goint.modulus with (2 * goint.half) in *. lia.
Qed.

(** Two nonnegative [int]s whose Go sum is positive did not overflow. *)
Lemma add_nonneg_positive (a b : Z) :
  goint.in_range a -> goint.in_range b -> 0 <= a -> 0 <= b ->
  0 < goint.add a b -> goint.add a b = a + b.
Proof.
  unfold goint.in_range, goint.add, goint.min_int, goint.max_int.
  intros Ha Hb Ha0 Hb0 Hpos.
  destruct (Z_lt_le_dec (a + b) goint.half) as [Hfit | Hover].
  - apply wrap_in_range.
    unfold goint.in_range, goint.min_int, goint.max_int. lia.
  - exfalso. unfold goint.wrap in Hpos.
    replace (a + b + goint.half)
      with (a + b - goint.half + 1 * goint.modulus) in Hpos
      by (change goint.modulus with (2 * goint.half); lia).
    rewrite Z.mod_add in Hpos by (vm_compute; discriminate).
    rewrite Z.mod_small in Hpos
      by (change goint.modulus with (2 * goint.half); lia).
    change goint.half with (2 ^ 63) in *. lia.
Qed.

(** ** Floating-point rounding

    [SpecFloat]'s [binary_round_aux] shifts a mantissa until it has 53 bits,
    keeps a rounding bit and a sticky bit for what it drops, and rounds to
    nearest, ties to even.  The lemmas below show that on a positive
    quantity [N / D * 2 ^ ex] with at least 53 bits before the binary point
    this is [rounded N D ex]; then that conversion, division and
    multiplication each return the correctly rounded exact result; and
    last what that means for [percent]. *)

(** *** Binary digits *)

Lemma digits2_pos_bounds (p : positive) :
  2 ^ (Zpos (digits2_pos p) - 1) <= Zpos p < 2 ^ Zpos (digits2_pos p).
Proof.
  induction p as [p IH | p IH | ]; cbn [digits2_pos].
  - rewrite Pos2Z.inj_succ, Z.pow_succ_r by lia.
    replace (Z.succ (Zpos (digits2_pos p)) - 1)
      with (Z.succ (Zpos (digits2_pos p) - 1)) by lia.
    rewrite Z.pow_succ_r by lia. lia.
  - rewrite Pos2Z.inj_succ, Z.pow_succ_r by lia.
    replace (Z.succ (Zpos (digits2_pos p)) - 1)
      with (Z.succ (Zpos (digits2_pos p) - 1)) by lia.
    rewrite Z.pow_succ_r by lia. lia.
  - cbn. lia.
Qed.

Lemma digits2_pos_unique (p : positive) (d : Z) :
  2 ^ (d - 1) <= Zpos p < 2 ^ d -> Zpos (digits2_pos p) = d.
Proof.
  intros [Hlo Hhi].
  pose proof (digits2_pos_bounds p) as [Hlo' Hhi'].
  assert (0 < d).
  { destruct (Z.ltb_spec 0 d); [ assumption | ].
    assert (2 ^ d <= 2 ^ 0)
      by (destruct (Z.ltb_spec d 0);
          [ rewrite Z.pow_neg_r by lia; cbn; lia
          | apply Z.pow_le_mono_r; lia ]).
    cbn in *. lia. }
  destruct (Z.lt_trichotomy (Zpos (digits2_pos p)) d)
    as [Hlt | [Heq | Hgt]].
  - assert (2 ^ Zpos (digits2_pos p) <= 2 ^ (d - 1))
      by (apply Z.pow_le_mono_r; lia). lia.
  - assumption.
  - assert (2 ^ d <= 2 ^ (Zpos (digits2_pos p) - 1))
      by (apply Z.pow_le_mono_r; lia). lia.
Qed.

(** *** Shifting right keeps track of what is dropped *)

Ltac bool_cases :=
  repeat match goal with
         | |- context [?a =? ?b] => destruct (Z.eqb_spec a b)
         | |- context [?a <=? ?b] => destruct (Z.leb_spec a b)
         | |- context [?a ?= ?b] => destruct (Z.compare_spec a b)
         end;
  cbn [negb andb orb shr_record_of_loc shr_m shr_r shr_s loc_of_shr_record
       round_nearest_even];
  try reflexivity; try (exfalso; lia).

Lemma located_of_loc (N D : Z) :
  0 < D -> 0 <= N -> located N D (shr_record_of_loc (N / D) (loc_of N D)).
Proof.
  intros HD HN. unfold located, loc_of.
  pose proof (Z.mod_pos_bound N D HD) as Hr.
  generalize dependent (N mod D). generalize (N / D). intros q r Hr.
  repeat split; try assumption; bool_cases.
Qed.

(** One more bit shifted out: the divisor doubles. *)
Lemma shr_1_located (N D : Z) (mrs : shr_record) :
  located N D mrs -> located N (2 * D) (shr_1 mrs).
Proof.
  intros (HD & HN & Hm & Hr & Hs).
  pose proof (Z.mod_pos_bound N D HD) as Hrem.
  assert (Hq : 0 <= N / D) by (apply Z.div_pos; lia).
  assert (Hdiv : N / (2 * D) = (N / D) / 2).
  { rewrite Z.mul_comm. symmetry. apply Z.div_div; lia. }
  assert (Hmod : N mod (2 * D) = N mod D + D * ((N / D) mod 2)).
  { rewrite Z.mul_comm. apply Z.rem_mul_r; lia. }
  unfold located. rewrite Hdiv, Hmod. clear Hdiv Hmod.
  generalize dependent (N mod D). generalize dependent (N / D).
  intros q Hq Hm r Hr Hs Hrem.
  destruct mrs as [m r0 s0]. cbn [shr_m shr_r shr_s] in *. subst m r0 s0.
  split; [ lia | split; [ assumption | ] ].
  destruct q as [ | [p | p | ] | p ]; cbn [shr_1 shr_m shr_r shr_s];
    try lia.
  - change (0 / 2) with 0. change (0 mod 2) with 0.
    replace (r + D * 0) with r by lia.
    repeat split; bool_cases.
  - assert (E2 : Z.pos p~1 mod 2 = 1)
      by (rewrite Pos2Z.inj_xI, Z.add_comm, Z.mul_comm, Z.mod_add by lia;
          reflexivity).
    assert (E1 : Z.pos p~1 / 2 = Z.pos p)
      by (rewrite Pos2Z.inj_xI, Z.add_comm, Z.mul_comm, Z.div_add by lia;
          reflexivity).
    rewrite E1, E2. repeat split; bool_cases.
  - assert (E2 : Z.pos p~0 mod 2 = 0)
      by (rewrite Pos2Z.inj_xO, Z.mul_comm, Z.mod_mul by lia; reflexivity).
    assert (E1 : Z.pos p~0 / 2 = Z.pos p)
      by (rewrite Pos2Z.inj_xO, Z.mul_comm, Z.div_mul by lia; reflexivity).
    rewrite E1, E2. replace (r + D * 0) with r by lia.
    repeat split; bool_cases.
  - change (1 / 2) with 0. change (1 mod 2) with 1.
    repeat split; bool_cases.
Qed.

Lemma iter_shr_1_located (p : positive) :
  forall N D mrs, located N D mrs ->
    located N (D * 2 ^ Zpos p) (SpecFloat.iter_pos shr_1 p mrs).
Proof.
  induction p as [p IH | p IH | ]; intros N D mrs H; cbn [SpecFloat.iter_pos].
  - rewrite (Pos2Z.inj_xI p).
    replace (D * 2 ^ (2 * Zpos p + 1)) with (2 * D * 2 ^ Zpos p * 2 ^ Zpos p)
      by (replace (2 * Zpos p + 1) with (Zpos p + Zpos p + 1) by lia;
          rewrite !Z.pow_add_r by lia; change (2 ^ 1) with 2; ring).
    apply IH, IH, shr_1_located, H.
  - rewrite (Pos2Z.inj_xO p).
    replace (D * 2 ^ (2 * Zpos p)) with (D * 2 ^ Zpos p * 2 ^ Zpos p)
      by (replace (2 * Zpos p) with (Zpos p + Zpos p) by lia;
          rewrite Z.pow_add_r by lia; ring).
    apply IH, IH, H.
  - replace (D * 2 ^ 1) with (2 * D) by lia. apply shr_1_located, H.
Qed.

(** *** Rounding an integer quotient to nearest even *)

Lemma round_located (N D : Z) (mrs : shr_record) :
  located N D mrs ->
  round_nearest_even (shr_m mrs) (loc_of_shr_record mrs) = rne N D.
Proof.
  intros (HD & HN & Hm & Hr & Hs). unfold rne.
  pose proof (Z.mod_pos_bound N D HD) as Hrem.
  destruct mrs as [m r s]. cbn [shr_m shr_r shr_s] in *. subst m r s.
  generalize dependent (N mod D). generalize (N / D). intros q r Hr.
  bool_cases.
Qed.

Lemma rne_bounds (N D : Z) : N / D <= rne N D <= N / D + 1.
Proof.
  unfold rne. destruct (2 * (N mod D) ?= D); [ destruct (Z.even _) | | ]; lia.
Qed.

(** The rounded quotient is within half a unit of [N / D]. *)
Lemma rne_error (N D : Z) : 0 < D -> - D <= 2 * (rne N D * D - N) <= D.
Proof.
  intros HD. unfold rne.
  pose proof (Z.mod_pos_bound N D HD) as Hrem.
  pose proof (Z.div_mod N D ltac:(lia)) as Hdm.
  destruct (Z.compare_spec (2 * (N mod D)) D);
    [ destruct (Z.even _) | | ]; nia.
Qed.

(** It does not step over an integer. *)
Lemma rne_le (N D M : Z) : 0 < D -> N <= M * D -> rne N D <= M.
Proof.
  intros HD H. unfold rne.
  pose proof (Z.mod_pos_bound N D HD) as Hrem.
  pose proof (Z.div_mod N D ltac:(lia)) as Hdm.
  assert (N / D <= M) by nia.
  destruct (Z.compare_spec (2 * (N mod D)) D);
    [ destruct (Z.even _) | | ]; nia.
Qed.

Lemma rne_ge (N D M : Z) : 0 < D -> M * D <= N -> M <= rne N D.
Proof.
  intros HD H.
  pose proof (Z.mod_pos_bound N D HD) as Hrem.
  pose proof (Z.div_mod N D ltac:(lia)) as Hdm.
  pose proof (rne_bounds N D).
  assert (M <= N / D) by nia. lia.
Qed.

Lemma rne_mono (N1 N2 D : Z) : 0 < D -> N1 <= N2 -> rne N1 D <= rne N2 D.
Proof.
  intros HD H.
  pose proof (Z.mod_pos_bound N1 D HD).
  pose proof (Z.mod_pos_bound N2 D HD).
  pose proof (Z.div_mod N1 D ltac:(lia)).
  pose proof (Z.div_mod N2 D ltac:(lia)).
  assert (Hq : N1 / D <= N2 / D) by (apply Z.div_le_mono; lia).
  unfold rne.
  destruct (Z.eq_dec (N1 / D) (N2 / D)) as [E | E].
  - rewrite E in *.
    destruct (Z.compare_spec (2 * (N1 mod D)) D);
      destruct (Z.compare_spec (2 * (N2 mod D)) D);
      destruct (Z.even (N2 / D)); lia.
  - destruct (Z.compare_spec (2 * (N1 mod D)) D);
      destruct (Z.compare_spec (2 * (N2 mod D)) D);
      destruct (Z.even (N1 / D)); destruct (Z.even (N2 / D)); lia.
Qed.

(** *** [binary_round_aux] *)

Lemma shr_located (N D n e : Z) (mrs : shr_record) :
  0 <= n -> located N D mrs ->
  located N (D * 2 ^ n) (fst (shr mrs e n)) /\ snd (shr mrs e n) = e + n.
Proof.
  intros Hn H. destruct n as [ | p | p ]; try lia; cbn [shr fst snd].
  - rewrite Z.mul_1_r. split; [ assumption | lia ].
  - split; [ apply iter_shr_1_located, H | reflexivity ].
Qed.

Lemma fexp_normal (e : Z) : -1074 <= e - 53 -> fexp 53 1024 e = e - 53.
Proof. intros H. unfold fexp, emin. lia. Qed.

(** On [N / D * 2 ^ ex], given by its integer part and the location of the
    rest, with at least 53 digits and in the range of normal numbers,
    [binary_round_aux] returns [rounded N D ex]. *)
Lemma round_aux_spec (sx : bool) (N D ex : Z) :
  0 < D -> 0 <= N ->
  let d := Zdigits2 (N / D) in
  53 <= d -> -1074 <= d + ex - 53 -> d + ex - 53 < 971 ->
  let n := d - 53 in
  let R := rne N (D * 2 ^ n) in
  2 ^ 52 <= R <= 2 ^ 53
  /\ binary_round_aux 53 1024 sx (N / D) ex (loc_of N D)
     = S754_finite sx (Z.to_pos (fst (canon R (ex + n))))
                   (snd (canon R (ex + n))).
Proof.
  intros HD HN d Hd Hlo Hhi n R.
  pose proof (Z.mod_pos_bound N D HD) as Hrem.
  pose proof (Z.div_mod N D ltac:(lia)) as Hdm.
  assert (Hmx : 0 <= N / D) by (apply Z.div_pos; lia).
  assert (Hbounds : 2 ^ (d - 1) <= N / D < 2 ^ d).
  { subst d. destruct (N / D) as [ | p | p ]; cbn [Zdigits2] in *; try lia.
    apply digits2_pos_bounds. }
  assert (Hn : 0 <= n) by (subst n; lia).
  assert (Hpow : 2 ^ (d - 1) = 2 ^ 52 * 2 ^ n)
    by (rewrite <- Z.pow_add_r by lia; f_equal; lia).
  assert (Hpow' : 2 ^ d = 2 ^ 53 * 2 ^ n)
    by (rewrite <- Z.pow_add_r by lia; f_equal; lia).
  assert (Hpn : 0 < 2 ^ n) by (apply Z.pow_pos_nonneg; lia).
  assert (HR : 2 ^ 52 <= R <= 2 ^ 53).
  { subst R. split.
    - apply rne_ge; nia.
    - apply rne_le; nia. }
  split; [ exact HR | ].
  unfold binary_round_aux, shr_fexp.
  fold d. rewrite fexp_normal by lia.
  replace (d + ex - 53 - ex) with n by (subst n; lia).
  destruct (shr_located N D n ex _ Hn (located_of_loc N D HD HN))
    as [Hloc He].
  destruct (shr (shr_record_of_loc (N / D) (loc_of N D)) ex n)
    as [mrs' e'] eqn:Hshr.
  cbn [fst snd] in Hloc, He. subst e'.
  rewrite (round_located _ _ _ Hloc). fold R.
  unfold canon.
  destruct (Z.ltb_spec R (2 ^ 53)) as [Hlt | Hge]; cbn [fst snd].
  - assert (Hdig : Zdigits2 R = 53).
    { destruct R as [ | p | p ]; try (cbn in HR; lia).
      cbn [Zdigits2]. apply digits2_pos_unique. change (53 - 1) with 52. lia. }
    rewrite Hdig, fexp_normal by lia.
    replace (53 + (ex + n) - 53 - (ex + n)) with 0 by lia.
    cbn [shr shr_record_of_loc shr_m].
    destruct R as [ | p | p ]; try (cbn in HR; lia).
    replace (ex + n <=? 1024 - 53) with true
      by (symmetry; apply Z.leb_le; subst n; lia).
    reflexivity.
  - assert (HR53 : R = 2 ^ 53) by lia.
    rewrite HR53.
    change (Zdigits2 (2 ^ 53)) with 54.
    rewrite fexp_normal by lia.
    replace (54 + (ex + n) - 53 - (ex + n)) with 1 by lia.
    cbn [shr shr_record_of_loc SpecFloat.iter_pos].
    change (shr_m (shr_1 {| shr_m := 2 ^ 53; shr_r := false; shr_s := false |}))
      with (2 ^ 52).
    change (2 ^ 52) with (Zpos (Z.to_pos (2 ^ 52))) at 1.
    cbv iota beta.
    replace (ex + n + 1 <=? 1024 - 53) with true
      by (symmetry; apply Z.leb_le; subst n; lia).
    reflexivity.
Qed.

Lemma loc_of_exact (N : Z) : loc_of N 1 = loc_Exact.
Proof. unfold loc_of. rewrite Z.mod_1_r. reflexivity. Qed.

Lemma round_aux_exact (N ex : Z) :
  0 < N ->
  let d := Zdigits2 N in
  53 <= d -> -1074 <= d + ex - 53 -> d + ex - 53 < 971 ->
  binary_round_aux 53 1024 false N ex loc_Exact = finite_pos (rounded N 1 ex).
Proof.
  intros HN d Hd Hlo Hhi.
  pose proof (round_aux_spec false N 1 ex ltac:(lia) ltac:(lia)) as H.
  rewrite Z.div_1_r, loc_of_exact in H.
  destruct (H Hd Hlo Hhi) as [_ ->].
  unfold finite_pos, rounded. rewrite Z.div_1_r. reflexivity.
Qed.

(** *** Conversion, division, multiplication *)

Lemma iter_xO (k p : positive) :
  Zpos (Pos.iter xO p k) = Zpos p * 2 ^ Zpos k.
Proof.
  revert p. induction k as [ | k IH ] using Pos.peano_ind; intros p.
  - cbn [Pos.iter]. change (2 ^ 1) with 2. lia.
  - rewrite Pos.iter_succ, Pos2Z.inj_xO, IH, Pos2Z.inj_succ, Z.pow_succ_r
      by lia.
    ring.
Qed.

(** [float64(n)] aligns [n] to 53 bits if it has fewer, and rounds. *)
Lemma of_int_spec (n : Z) :
  0 < n < 2 ^ 64 ->
  let s := Z.max 0 (53 - Zdigits2 n) in
  float64.of_int n = finite_pos (rounded (n * 2 ^ s) 1 (- s)).
Proof.
  intros Hn s.
  destruct n as [ | p | p ]; try lia.
  pose proof (digits2_pos_bounds p) as Hb.
  assert (Hd64 : Zpos (digits2_pos p) <= 64).
  { destruct (Z.leb_spec (Zpos (digits2_pos p)) 64); [ assumption | ].
    assert (2 ^ 64 <= 2 ^ (Zpos (digits2_pos p) - 1))
      by (apply Z.pow_le_mono_r; lia). lia. }
  unfold float64.of_int, binary_normalize, binary_round, shl_align,
         float64.prec, float64.emax.
  cbn [Zdigits2] in s.
  rewrite Z.add_0_r, Z.sub_0_r.
  destruct (Z.leb_spec 53 (Zpos (digits2_pos p))) as [Hge | Hlt].
  - rewrite fexp_normal by lia.
    replace s with 0 by lia.
    destruct (Z.pos (digits2_pos p) - 53) eqn:E; try lia;
      change (2 ^ 0) with 1; rewrite Z.mul_1_r;
      apply round_aux_exact; cbn [Zdigits2]; lia.
  - rewrite fexp_normal by lia.
    destruct (Z.pos (digits2_pos p) - 53) as [ | k | k ] eqn:E; try lia.
    assert (Hs : s = Zpos k) by lia.
    rewrite Hs. change (- Zpos k) with (Z.neg k).
    rewrite <- iter_xO.
    assert (Hdig : Zpos (digits2_pos (Pos.iter xO p k)) = 53).
    { apply digits2_pos_unique. rewrite iter_xO.
      assert (Hk : Zpos k = 53 - Zpos (digits2_pos p)) by lia.
      assert (2 ^ 52 = 2 ^ (Zpos (digits2_pos p) - 1) * 2 ^ Zpos k)
        by (rewrite <- Z.pow_add_r by lia; f_equal; lia).
      assert (2 ^ 53 = 2 ^ (Zpos (digits2_pos p)) * 2 ^ Zpos k)
        by (rewrite <- Z.pow_add_r by lia; f_equal; lia).
      assert (0 < 2 ^ Zpos k) by (apply Z.pow_pos_nonneg; lia).
      change (53 - 1) with 52. nia. }
    apply round_aux_exact; cbn [Zdigits2]; lia.
Qed.

(** The location [SFdiv] derives from the remainder is that of the
    quotient. *)
Lemma new_location_loc_of (N D : Z) :
  0 < D -> new_location D (N mod D) = loc_of N D.
Proof.
  intros HD. pose proof (Z.mod_pos_bound N D HD) as Hr.
  unfold new_location, new_location_even, new_location_odd, loc_of.
  generalize dependent (N mod D). intros r Hr.
  destruct (Z.even D) eqn:Heven.
  - reflexivity.
  - rewrite Zeven_mod in Heven. apply Z.eqb_neq in Heven.
    pose proof (Z.mod_pos_bound D 2 ltac:(lia)).
    pose proof (Z.div_mod D 2 ltac:(lia)).
    destruct (Z.eqb_spec r 0); [ reflexivity | ].
    destruct (Z.compare_spec (2 * r + 1) D);
      destruct (Z.compare_spec (2 * r) D); try reflexivity; exfalso; lia.
Qed.

Lemma digits_ge (x d : Z) : 0 < d -> 2 ^ (d - 1) <= x -> d <= Zdigits2 x.
Proof.
  intros Hd Hx.
  assert (0 < 2 ^ (d - 1)) by (apply Z.pow_pos_nonneg; lia).
  destruct x as [ | p | p ]; try lia. cbn [Zdigits2].
  pose proof (digits2_pos_bounds p) as [_ Hhi].
  destruct (Z.leb_spec d (Zpos (digits2_pos p))); [ assumption | ].
  assert (2 ^ Zpos (digits2_pos p) <= 2 ^ (d - 1))
    by (apply Z.pow_le_mono_r; lia). lia.
Qed.

Lemma digits_le (x d : Z) : 0 <= d -> 0 <= x < 2 ^ d -> Zdigits2 x <= d.
Proof.
  intros Hd Hx.
  destruct x as [ | p | p ]; cbn [Zdigits2]; try lia.
  pose proof (digits2_pos_bounds p) as [Hlo _].
  destruct (Z.leb_spec (Zpos (digits2_pos p)) d); [ assumption | ].
  assert (2 ^ d <= 2 ^ (Zpos (digits2_pos p) - 1))
    by (apply Z.pow_le_mono_r; lia). lia.
Qed.

Lemma fdiv_spec (mx my : positive) (ex ey : Z) :
  canonical mx -> canonical my -> -900 <= ex - ey <= 900 ->
  float64.div (S754_finite false mx ex) (S754_finite false my ey)
  = finite_pos (rounded (Zpos mx * 2 ^ 53) (Zpos my) (ex - ey - 53)).
Proof.
  intros Hx Hy He. unfold canonical in *.
  pose proof (round_aux_spec false (Zpos mx * 2 ^ 53) (Zpos my)
                (ex - ey - 53) ltac:(lia) ltac:(lia)) as H.
  assert (Hq : 2 ^ 52 <= Zpos mx * 2 ^ 53 / Zpos my < 2 ^ 54).
  { split.
    - apply Z.div_le_lower_bound; lia.
    - apply Z.div_lt_upper_bound; lia. }
  assert (Hd1 : 53 <= Zdigits2 (Zpos mx * 2 ^ 53 / Zpos my))
    by (apply digits_ge; [ lia | change (53 - 1) with 52; lia ]).
  assert (Hd2 : Zdigits2 (Zpos mx * 2 ^ 53 / Zpos my) <= 54)
    by (apply digits_le; lia).
  destruct (H Hd1 ltac:(lia) ltac:(lia)) as [_ Hround]. clear H.
  unfold float64.div, SFdiv, SFdiv_core_binary, float64.prec, float64.emax.
  cbn [xorb Zdigits2].
  rewrite (digits2_pos_unique mx 53), (digits2_pos_unique my 53)
    by (change (53 - 1) with 52; lia).
  replace (53 + ex - (53 + ey)) with (ex - ey) by lia.
  rewrite fexp_normal by lia.
  rewrite Z.min_l by lia.
  replace (ex - ey - (ex - ey - 53)) with 53 by lia.
  rewrite Z.shiftl_mul_pow2 by lia.
  pose proof (new_location_loc_of (Zpos mx * 2 ^ 53) (Zpos my) ltac:(lia))
    as Hloc.
  unfold finite_pos, rounded.
  unfold Z.div, Z.modulo in Hround, Hloc |- *.
  destruct (Z.div_eucl (Zpos mx * 2 ^ 53) (Zpos my)) as [q r].
  rewrite Hloc, Hround. reflexivity.
Qed.

Lemma fmul_spec (mx my : positive) (ex ey : Z) :
  canonical mx -> canonical my -> -900 <= ex + ey <= 800 ->
  float64.mul (S754_finite false mx ex) (S754_finite false my ey)
  = finite_pos (rounded (Zpos mx * Zpos my) 1 (ex + ey)).
Proof.
  intros Hx Hy He. unfold canonical in *.
  unfold float64.mul, SFmul, float64.prec, float64.emax. cbn [xorb].
  rewrite Pos2Z.inj_mul.
  assert (Hq : 2 ^ 104 <= Zpos mx * Zpos my < 2 ^ 106).
  { change (2 ^ 104) with (2 ^ 52 * 2 ^ 52).
    change (2 ^ 106) with (2 ^ 53 * 2 ^ 53). nia. }
  assert (Hd1 : 105 <= Zdigits2 (Zpos mx * Zpos my))
    by (apply digits_ge; [ lia | change (105 - 1) with 104; lia ]).
  assert (Hd2 : Zdigits2 (Zpos mx * Zpos my) <= 106)
    by (apply digits_le; lia).
  apply round_aux_exact; lia.
Qed.

(** *** Values as real numbers *)

Lemma bpow_pos (e : Z) : (0 < float64.bpow e)%R.
Proof. apply powerRZ_lt. lra. Qed.

Lemma bpow_add (a b : Z) :
  float64.bpow (a + b) = (float64.bpow a * float64.bpow b)%R.
Proof. apply powerRZ_add. lra. Qed.

Lemma bpow_IZR (k : Z) : 0 <= k -> float64.bpow k = IZR (2 ^ k).
Proof.
  intros Hk. unfold float64.bpow.
  rewrite <- (Z2Nat.id k) by assumption.
  rewrite <- pow_powerRZ, pow_IZR. reflexivity.
Qed.

Lemma bpow_le (a b : Z) : a <= b -> (float64.bpow a <= float64.bpow b)%R.
Proof.
  intros H. replace b with (a + (b - a)) by lia.
  rewrite bpow_add, (bpow_IZR (b - a)) by lia.
  assert (1 <= 2 ^ (b - a)) by (apply Z.lt_pred_le, Z.pow_pos_nonneg; lia).
  pose proof (bpow_pos a). apply IZR_le in H0.
  nra.
Qed.

Lemma rounded_value (N D ex : Z) :
  0 < D -> 2 ^ 52 * D <= N ->
  let n := Zdigits2 (N / D) - 53 in
  let R := rne N (D * 2 ^ n) in
  0 <= n /\ 2 ^ 52 * (D * 2 ^ n) <= N < 2 ^ 53 * (D * 2 ^ n)
  /\ 2 ^ 52 <= R <= 2 ^ 53
  /\ 2 ^ 52 <= fst (rounded N D ex) < 2 ^ 53
  /\ (IZR (fst (rounded N D ex)) * float64.bpow (snd (rounded N D ex))
      = IZR R * float64.bpow (ex + n))%R.
Proof.
  intros HD HN n R.
  pose proof (Z.mod_pos_bound N D HD) as Hrem.
  pose proof (Z.div_mod N D ltac:(lia)) as Hdm.
  assert (Hq : 2 ^ 52 <= N / D) by (apply Z.div_le_lower_bound; lia).
  assert (Hd : 53 <= Zdigits2 (N / D))
    by (apply digits_ge; [ lia | change (53 - 1) with 52; lia ]).
  assert (Hn : 0 <= n) by (subst n; lia).
  assert (Hbounds : 2 ^ (Zdigits2 (N / D) - 1) <= N / D
                    < 2 ^ Zdigits2 (N / D)).
  { destruct (N / D) as [ | p | p ]; cbn [Zdigits2] in *; try lia.
    apply digits2_pos_bounds. }
  assert (Hpow : 2 ^ (Zdigits2 (N / D) - 1) = 2 ^ 52 * 2 ^ n)
    by (rewrite <- Z.pow_add_r by lia; f_equal; lia).
  assert (Hpow' : 2 ^ Zdigits2 (N / D) = 2 ^ 53 * 2 ^ n)
    by (rewrite <- Z.pow_add_r by lia; f_equal; lia).
  assert (Hpn : 0 < 2 ^ n) by (apply Z.pow_pos_nonneg; lia).
  assert (HND : 2 ^ 52 * (D * 2 ^ n) <= N < 2 ^ 53 * (D * 2 ^ n)) by nia.
  assert (HR : 2 ^ 52 <= R <= 2 ^ 53).
  { subst R. split; [ apply rne_ge | apply rne_le ]; nia. }
  split; [ exact Hn | split; [ exact HND | split; [ exact HR | ] ] ].
  unfold rounded. fold n. fold R. unfold canon.
  destruct (Z.ltb_spec R (2 ^ 53)) as [Hlt | Hge]; cbn [fst snd].
  - split; [ lia | reflexivity ].
  - split; [ lia | ].
    replace R with (2 ^ 53) by lia.
    rewrite (bpow_add (ex + n) 1).
    rewrite (bpow_IZR 1) by lia.
    change (2 ^ 53) with (2 ^ 52 * 2). rewrite mult_IZR.
    change (2 ^ 1) with 2. lra.
Qed.

Ltac push_IZR H :=
  repeat first [ rewrite mult_IZR in H | rewrite opp_IZR in H
               | rewrite minus_IZR in H | rewrite plus_IZR in H ].

Lemma rounded_exponent (N D ex : Z) :
  let n := Zdigits2 (N / D) - 53 in
  snd (rounded N D ex) = ex + n \/ snd (rounded N D ex) = ex + n + 1.
Proof.
  cbv zeta. unfold rounded, canon.
  destruct (_ <? _); cbn [snd]; auto.
Qed.

(** The relative error of one rounding is at most [2 ^ -53]. *)
Lemma rounded_error (N D ex : Z) :
  0 < D -> 2 ^ 52 * D <= N ->
  (Rabs (IZR (fst (rounded N D ex)) * float64.bpow (snd (rounded N D ex))
         - IZR N / IZR D * float64.bpow ex)
   <= IZR N / IZR D * float64.bpow ex * float64.bpow (-53))%R.
Proof.
  intros HD HN.
  destruct (rounded_value N D ex HD HN) as (Hn & HND & HR & _ & ->).
  set (n := Zdigits2 (N / D) - 53) in *.
  pose proof (rne_error N (D * 2 ^ n)
                ltac:(apply Z.mul_pos_pos;
                      [ lia | apply Z.pow_pos_nonneg; lia ])) as Herr.
  set (R := rne N (D * 2 ^ n)) in *.
  rewrite bpow_add.
  assert (Hu : float64.bpow n = IZR (2 ^ n)) by (apply bpow_IZR; lia).
  pose proof (bpow_pos ex) as Ht. pose proof (bpow_pos n) as Hun.
  assert (HdR : (0 < IZR D)%R) by (apply IZR_lt; lia).
  assert (H53 : (float64.bpow (-53) * IZR (2 ^ 53) = 1)%R).
  { rewrite <- (bpow_IZR 53), <- bpow_add by lia. reflexivity. }
  destruct HND as [Hlo _]. destruct Herr as [He1 He2].
  apply IZR_le in Hlo, He1, He2.
  push_IZR Hlo. push_IZR He1. push_IZR He2.
  rewrite <- Hu in Hlo, He1, He2.
  set (y := (IZR N / IZR D)%R).
  assert (Hy : IZR N = (y * IZR D)%R) by (unfold y; field; lra).
  rewrite Hy in Hlo, He1, He2. clear Hy.
  set (r := IZR R) in *. set (u := float64.bpow n) in *.
  set (t := float64.bpow ex) in *.
  set (c53 := float64.bpow (-53)) in *. set (d := IZR D) in *.
  clearbody r u t c53 d y.
  change (IZR (2 ^ 53)) with 9007199254740992%R in H53.
  change (IZR (2 ^ 52)) with 4503599627370496%R in Hlo.
  assert (Hh1 : (- u <= 2 * (r * u - y))%R) by nra.
  assert (Hh2 : (2 * (r * u - y) <= u)%R) by nra.
  assert (Hy52 : (4503599627370496 * u <= y)%R) by nra.
  assert (Hz : (u / 2 <= y * c53)%R) by nra.
  apply Rabs_le. split; nra.
Qed.

(** Rounding does not step over a float: a float that bounds the exact
    value bounds the rounded one. *)
Lemma rounded_le (N D ex mb eb : Z) :
  0 < D -> 2 ^ 52 * D <= N ->
  2 ^ 52 <= mb < 2 ^ 53 ->
  (IZR N / IZR D * float64.bpow ex <= IZR mb * float64.bpow eb)%R ->
  (IZR (fst (rounded N D ex)) * float64.bpow (snd (rounded N D ex))
   <= IZR mb * float64.bpow eb)%R.
Proof.
  intros HD HN Hmb HX.
  destruct (rounded_value N D ex HD HN) as (Hn & HND & HR & _ & ->).
  set (n := Zdigits2 (N / D) - 53) in *.
  assert (HD' : 0 < D * 2 ^ n)
    by (apply Z.mul_pos_pos; [ lia | apply Z.pow_pos_nonneg; lia ]).
  assert (Hu : float64.bpow n = IZR (2 ^ n)) by (apply bpow_IZR; lia).
  pose proof (bpow_pos ex) as Ht. pose proof (bpow_pos n) as Hun.
  pose proof (bpow_pos eb) as Hb.
  assert (HdR : (0 < IZR D)%R) by (apply IZR_lt; lia).
  destruct HND as [Hlo _].
  destruct (Z.leb_spec (ex + n) eb) as [Hle | Hgt].
  - (* the bound is a multiple of the unit of the result *)
    set (M := mb * 2 ^ (eb - (ex + n))).
    assert (HM : (IZR mb * float64.bpow eb = IZR M * float64.bpow (ex + n))%R).
    { unfold M. rewrite mult_IZR, <- bpow_IZR by lia.
      replace eb with ((eb - (ex + n)) + (ex + n)) at 1 by lia.
      rewrite bpow_add. ring. }
    rewrite HM in *.
    assert (HNM : N <= M * (D * 2 ^ n)).
    { apply le_IZR. rewrite !mult_IZR, <- Hu.
      rewrite bpow_add in HX.
      assert (Hy : IZR N = (IZR N / IZR D * IZR D)%R) by (field; lra).
      rewrite Hy.
      set (y := (IZR N / IZR D)%R) in *.
      set (t := float64.bpow ex) in *. set (u := float64.bpow n) in *.
      set (d := IZR D) in *. set (m := IZR M) in *.
      clearbody y t u d m.
      assert ((y - m * u) * t <= 0)%R by nra.
      assert (y <= m * u)%R by nra.
      nra. }
    pose proof (rne_le N (D * 2 ^ n) M HD' HNM) as HRM.
    apply IZR_le in HRM.
    pose proof (bpow_pos (ex + n)). nra.
  - (* the bound lies under the binade of the value *)
    exfalso.
    assert (Heb : (float64.bpow eb * 2 <= float64.bpow (ex + n))%R).
    { replace (ex + n) with (eb + 1 + (ex + n - eb - 1)) by lia.
      rewrite !bpow_add, (bpow_IZR 1), (bpow_IZR (ex + n - eb - 1)) by lia.
      assert (1 <= 2 ^ (ex + n - eb - 1))
        by (apply Z.lt_pred_le, Z.pow_pos_nonneg; lia).
      apply IZR_le in H. change (IZR (2 ^ 1)) with 2%R. nra. }
    rewrite bpow_add in Heb.
    apply IZR_le in Hlo. push_IZR Hlo. rewrite <- Hu in Hlo.
    destruct Hmb as [_ Hmb]. apply IZR_lt in Hmb.
    change (IZR (2 ^ 53)) with 9007199254740992%R in Hmb.
    change (IZR (2 ^ 52)) with 4503599627370496%R in Hlo.
    assert (Hy : IZR N = (IZR N / IZR D * IZR D)%R) by (field; lra).
    rewrite Hy in Hlo.
    set (y := (IZR N / IZR D)%R) in *.
    set (t := float64.bpow ex) in *. set (u := float64.bpow n) in *.
    set (d := IZR D) in *. set (m := IZR mb) in *.
    set (b := float64.bpow eb) in *.
    clearbody y t u d m b.
    assert (4503599627370496 * u <= y)%R by nra.
    assert (m * b < 9007199254740992 * b)%R by nra.
    assert (4503599627370496 * (t * u) <= y * t)%R by nra.
    nra.
Qed.

(** On full mantissas [SFleb] is the order of the values. *)
Lemma leb_canonical (m1 m2 : positive) (e1 e2 : Z) :
  canonical m1 -> canonical m2 ->
  (IZR (Zpos m1) * float64.bpow e1 <= IZR (Zpos m2) * float64.bpow e2)%R ->
  SFleb (S754_finite false m1 e1) (S754_finite false m2 e2) = true.
Proof.
  unfold canonical. intros H1 H2 Hle.
  unfold SFleb, SFcompare.
  destruct (Z.compare_spec e1 e2) as [E | E | E].
  - subst e2. change (Pos.compare_cont Eq m1 m2) with (Pos.compare m1 m2).
    destruct (Pos.compare_spec m1 m2) as [C | C | C]; try reflexivity.
    exfalso. pose proof (bpow_pos e1).
    assert (Zpos m2 < Zpos m1) by lia.
    apply IZR_lt in H0. nra.
  - reflexivity.
  - exfalso.
    assert (Heb : (float64.bpow e2 * 2 <= float64.bpow e1)%R).
    { replace e1 with (e2 + 1 + (e1 - e2 - 1)) by lia.
      rewrite !bpow_add, (bpow_IZR 1), (bpow_IZR (e1 - e2 - 1)) by lia.
      assert (1 <= 2 ^ (e1 - e2 - 1))
        by (apply Z.lt_pred_le, Z.pow_pos_nonneg; lia).
      apply IZR_le in H. change (IZR (2 ^ 1)) with 2%R.
      pose proof (bpow_pos e2). nra. }
    destruct H1 as [H1 _]. destruct H2 as [_ H2].
    apply IZR_le in H1. apply IZR_lt in H2.
    change (IZR (2 ^ 53)) with 9007199254740992%R in H2.
    change (IZR (2 ^ 52)) with 4503599627370496%R in H1.
    pose proof (bpow_pos e2). pose proof (bpow_pos e1).
    set (a := IZR (Zpos m1)) in *. set (b := IZR (Zpos m2)) in *.
    set (x := float64.bpow e1) in *. set (y := float64.bpow e2) in *.
    clearbody a b x y. nra.
Qed.

Lemma Zdigits2_bounds (x : Z) :
  0 < x -> 2 ^ (Zdigits2 x - 1) <= x < 2 ^ Zdigits2 x.
Proof.
  intros Hx. destruct x as [ | p | p ]; try lia.
  apply digits2_pos_bounds.
Qed.

Lemma Zdigits2_unique (x d : Z) :
  2 ^ (d - 1) <= x < 2 ^ d -> 0 < x -> Zdigits2 x = d.
Proof.
  intros H Hx. destruct x as [ | p | p ]; try lia.
  apply digits2_pos_unique, H.
Qed.

Lemma Zdigits2_shift (x s : Z) :
  0 < x -> 0 <= s -> Zdigits2 (x * 2 ^ s) = Zdigits2 x + s.
Proof.
  intros Hx Hs. pose proof (Zdigits2_bounds x Hx) as Hb.
  assert (Hd : 0 < Zdigits2 x) by (destruct x; cbn; lia).
  assert (Hp : 0 < 2 ^ s) by (apply Z.pow_pos_nonneg; lia).
  apply Zdigits2_unique; [ | nia ].
  replace (Zdigits2 x + s - 1) with (Zdigits2 x - 1 + s) by lia.
  rewrite !Z.pow_add_r by lia. nia.
Qed.

Lemma Zdigits2_mono (x y : Z) : 0 < x <= y -> Zdigits2 x <= Zdigits2 y.
Proof.
  intros H.
  pose proof (Zdigits2_bounds x ltac:(lia)).
  pose proof (Zdigits2_bounds y ltac:(lia)).
  destruct (Z.leb_spec (Zdigits2 x) (Zdigits2 y)); [ assumption | ].
  assert (2 ^ Zdigits2 y <= 2 ^ (Zdigits2 x - 1)).
  { apply Z.pow_le_mono_r; lia. }
  lia.
Qed.

Lemma rne_1 (N : Z) : rne N 1 = N.
Proof.
  unfold rne. rewrite Z.mod_1_r, Z.div_1_r. reflexivity.
Qed.

Lemma to_R_finite_pos (me : Z * Z) :
  0 < fst me ->
  float64.to_R (finite_pos me) = (IZR (fst me) * float64.bpow (snd me))%R.
Proof.
  intros H. unfold finite_pos, float64.to_R, cond_Zopp.
  rewrite Z2Pos.id by assumption. reflexivity.
Qed.

(** [float64(n)] for a positive [n]: exact up to 53 bits, rounded to a
    multiple of [2 ^ (d - 53)] beyond. *)
Lemma of_int_value (n : Z) :
  0 < n < 2 ^ 64 ->
  let d := Zdigits2 n in
  float64.to_R (float64.of_int n)
  = if d <=? 53 then IZR n
    else (IZR (rne n (2 ^ (d - 53))) * float64.bpow (d - 53))%R.
Proof.
  intros Hn d. rewrite of_int_spec by assumption.
  set (s := Z.max 0 (53 - Zdigits2 n)).
  assert (Hd : 0 < d) by (subst d; destruct n; cbn; lia).
  pose proof (Zdigits2_bounds n ltac:(lia)) as Hb. fold d in Hb.
  assert (Hs : 0 <= s) by lia.
  assert (Hps : 0 < 2 ^ s) by (apply Z.pow_pos_nonneg; lia).
  assert (Hdig : Zdigits2 (n * 2 ^ s / 1) = d + s)
    by (rewrite Z.div_1_r; apply Zdigits2_shift; lia).
  assert (Hlow : 2 ^ 52 * 1 <= n * 2 ^ s).
  { destruct (Z.leb_spec d 53).
    - replace 52 with (d - 1 + s) by lia. rewrite Z.pow_add_r by lia. nia.
    - assert (2 ^ 52 <= 2 ^ (d - 1)) by (apply Z.pow_le_mono_r; lia). nia. }
  destruct (rounded_value (n * 2 ^ s) 1 (- s) ltac:(lia) Hlow)
    as (_ & _ & _ & Hm & HV).
  rewrite to_R_finite_pos by lia. rewrite HV, Hdig.
  destruct (Z.leb_spec d 53) as [Hle | Hgt].
  - replace (d + s - 53) with 0 by lia.
    change (1 * 2 ^ 0) with 1. rewrite rne_1, mult_IZR, <- bpow_IZR by lia.
    rewrite Z.add_0_r, Rmult_assoc, <- bpow_add.
    replace (s + - s) with 0 by lia. change (float64.bpow 0) with 1%R. ring.
  - replace s with 0 by lia.
    change (2 ^ 0) with 1. rewrite Z.mul_1_r, Z.mul_1_l.
    replace (- 0 + (d + 0 - 53)) with (d - 53) by lia.
    replace (d + 0 - 53) with (d - 53) by lia. reflexivity.
Qed.

(** Conversion is monotone. *)
Lemma of_int_mono (c p : Z) :
  0 < c <= p -> p < 2 ^ 64 ->
  (float64.to_R (float64.of_int c) <= float64.to_R (float64.of_int p))%R.
Proof.
  intros Hc Hp.
  rewrite !of_int_value by lia.
  pose proof (Zdigits2_mono c p Hc) as Hd.
  pose proof (Zdigits2_bounds c ltac:(lia)) as Hbc.
  pose proof (Zdigits2_bounds p ltac:(lia)) as Hbp.
  set (dc := Zdigits2 c) in *. set (dp := Zdigits2 p) in *.
  destruct (Z.leb_spec dp 53) as [Hp53 | Hp53].
  - replace (dc <=? 53) with true by (symmetry; apply Z.leb_le; lia).
    apply IZR_le. lia.
  - assert (Hkp : 0 < 2 ^ (dp - 53)) by (apply Z.pow_pos_nonneg; lia).
    assert (Hpow : 2 ^ (dp - 1) = 2 ^ 52 * 2 ^ (dp - 53))
      by (rewrite <- Z.pow_add_r by lia; f_equal; lia).
    assert (Hlow : 2 ^ 52 <= rne p (2 ^ (dp - 53)))
      by (apply rne_ge; nia).
    assert (HlowR :
              (IZR (2 ^ (dp - 1))
               <= IZR (rne p (2 ^ (dp - 53))) * float64.bpow (dp - 53))%R).
    { rewrite Hpow, mult_IZR, <- (bpow_IZR (dp - 53)) by lia.
      apply IZR_le in Hlow. pose proof (bpow_pos (dp - 53)). nra. }
    destruct (Z.leb_spec dc 53) as [Hc53 | Hc53].
    + (* c is exact and below the binade of p *)
      assert (c <= 2 ^ (dp - 1)).
      { assert (2 ^ dc <= 2 ^ (dp - 1)) by (apply Z.pow_le_mono_r; lia).
        lia. }
      apply IZR_le in H. lra.
    + destruct (Z.eq_dec dc dp) as [E | E].
      * rewrite E.
        pose proof (rne_mono c p (2 ^ (dp - 53)) Hkp ltac:(lia)) as Hm.
        apply IZR_le in Hm. pose proof (bpow_pos (dp - 53)). nra.
      * assert (Hkc : 0 < 2 ^ (dc - 53)) by (apply Z.pow_pos_nonneg; lia).
        assert (Hpowc : 2 ^ dc = 2 ^ 53 * 2 ^ (dc - 53))
          by (rewrite <- Z.pow_add_r by lia; f_equal; lia).
        assert (Hup : rne c (2 ^ (dc - 53)) <= 2 ^ 53)
          by (apply rne_le; nia).
        assert (HupR : (IZR (rne c (2 ^ (dc - 53))) * float64.bpow (dc - 53)
                        <= IZR (2 ^ dc))%R).
        { rewrite Hpowc, mult_IZR, <- (bpow_IZR (dc - 53)) by lia.
          apply IZR_le in Hup. pose proof (bpow_pos (dc - 53)). nra. }
        assert (2 ^ dc <= 2 ^ (dp - 1)) by (apply Z.pow_le_mono_r; lia).
        apply IZR_le in H. lra.
Qed.

Lemma bpow_opp (e : Z) : (float64.bpow (- e) * float64.bpow e = 1)%R.
Proof.
  rewrite <- bpow_add. replace (- e + e) with 0 by lia. reflexivity.
Qed.

Lemma bpow_inv (e : Z) : float64.bpow (- e) = (/ float64.bpow e)%R.
Proof. apply powerRZ_neg'. Qed.

Lemma rounded_correct (N D ex : Z) (X : R) (dlo dhi : Z) :
  0 < D -> 2 ^ 52 * D <= N ->
  X = (IZR N / IZR D * float64.bpow ex)%R ->
  dlo <= Zdigits2 (N / D) <= dhi ->
  correctly_rounded X (finite_pos (rounded N D ex))
                    (ex + dlo - 53) (ex + dhi - 52).
Proof.
  intros HD HN -> Hdig.
  destruct (rounded_value N D ex HD HN) as (_ & _ & _ & Hm & _).
  exists (Z.to_pos (fst (rounded N D ex))), (snd (rounded N D ex)).
  unfold canonical. rewrite Z2Pos.id by lia.
  split; [ reflexivity | split; [ exact Hm | split ] ].
  - pose proof (rounded_exponent N D ex). cbv zeta in H. lia.
  - split.
    + apply rounded_error; assumption.
    + intros mb eb Hmb HX. apply rounded_le; assumption.
Qed.

Lemma of_int_correct (n : Z) :
  0 < n < 2 ^ 64 -> correctly_rounded (IZR n) (float64.of_int n) (-52) 12.
Proof.
  intros Hn. rewrite of_int_spec by assumption.
  set (s := Z.max 0 (53 - Zdigits2 n)).
  assert (Hd : 0 < Zdigits2 n) by (destruct n; cbn; lia).
  pose proof (Zdigits2_bounds n ltac:(lia)) as Hb.
  assert (Hd64 : Zdigits2 n <= 64) by (apply digits_le; lia).
  assert (Hs : 0 <= s) by lia.
  assert (Hps : 0 < 2 ^ s) by (apply Z.pow_pos_nonneg; lia).
  assert (Hdig : Zdigits2 (n * 2 ^ s / 1) = Zdigits2 n + s)
    by (rewrite Z.div_1_r; apply Zdigits2_shift; lia).
  assert (Hlow : 2 ^ 52 * 1 <= n * 2 ^ s).
  { destruct (Z.leb_spec (Zdigits2 n) 53).
    - replace 52 with (Zdigits2 n - 1 + s) by lia.
      rewrite Z.pow_add_r by lia. nia.
    - assert (2 ^ 52 <= 2 ^ (Zdigits2 n - 1))
        by (apply Z.pow_le_mono_r; lia). nia. }
  assert (HX : IZR n = (IZR (n * 2 ^ s) / IZR 1 * float64.bpow (- s))%R).
  { rewrite mult_IZR, <- bpow_IZR by lia.
    replace (IZR n * float64.bpow s / 1 * float64.bpow (- s))%R
      with (IZR n * (float64.bpow (- s) * float64.bpow s))%R by field.
    rewrite bpow_opp. ring. }
  pose proof (rounded_correct (n * 2 ^ s) 1 (- s) (IZR n)
                (Zdigits2 n + s) (Zdigits2 n + s)
                ltac:(lia) Hlow HX ltac:(lia)) as H.
  destruct H as (m & e & Hf & Hm & He & Herr & Hub).
  exists m, e.
  split; [ exact Hf | split; [ exact Hm | split; [ lia | ] ] ].
  split; [ exact Herr | exact Hub ].
Qed.

Lemma fdiv_correct (mx my : positive) (ex ey : Z) :
  canonical mx -> canonical my -> -900 <= ex - ey <= 900 ->
  correctly_rounded
    (IZR (Zpos mx) * float64.bpow ex / (IZR (Zpos my) * float64.bpow ey))
    (float64.div (S754_finite false mx ex) (S754_finite false my ey))
    (ex - ey - 53) (ex - ey - 51).
Proof.
  intros Hx Hy He. rewrite fdiv_spec by assumption.
  unfold canonical in *.
  assert (Hq : 2 ^ 52 <= Zpos mx * 2 ^ 53 / Zpos my < 2 ^ 54).
  { split.
    - apply Z.div_le_lower_bound; lia.
    - apply Z.div_lt_upper_bound; lia. }
  assert (Hd1 : 53 <= Zdigits2 (Zpos mx * 2 ^ 53 / Zpos my))
    by (apply digits_ge; [ lia | change (53 - 1) with 52; lia ]).
  assert (Hd2 : Zdigits2 (Zpos mx * 2 ^ 53 / Zpos my) <= 54)
    by (apply digits_le; lia).
  pose proof (rounded_correct (Zpos mx * 2 ^ 53) (Zpos my) (ex - ey - 53)
                (IZR (Zpos mx) * float64.bpow ex
                 / (IZR (Zpos my) * float64.bpow ey))
                53 54 ltac:(lia) ltac:(lia)) as H.
  replace (ex - ey - 53 + 53 - 53) with (ex - ey - 53) in H by lia.
  replace (ex - ey - 53 + 54 - 52) with (ex - ey - 51) in H by lia.
  apply H; [ | lia ].
  rewrite mult_IZR, <- (bpow_IZR 53) by lia.
  replace (ex - ey - 53) with (ex + (- ey + - 53)) by lia.
  rewrite !bpow_add. change (-53) with (- (53)). rewrite !bpow_inv.
  pose proof (bpow_pos ey). pose proof (bpow_pos 53).
  assert (0 < IZR (Zpos my))%R by (apply IZR_lt; lia).
  set (a := IZR (Zpos mx)) in *. set (b := IZR (Zpos my)) in *.
  set (x := float64.bpow ex) in *. set (y := float64.bpow ey) in *.
  set (z := float64.bpow 53) in *. clearbody a b x y z.
  field. repeat split; lra.
Qed.

Lemma fmul_correct (mx my : positive) (ex ey : Z) :
  canonical mx -> canonical my -> -900 <= ex + ey <= 800 ->
  correctly_rounded
    (IZR (Zpos mx) * float64.bpow ex * (IZR (Zpos my) * float64.bpow ey))
    (float64.mul (S754_finite false mx ex) (S754_finite false my ey))
    (ex + ey + 52) (ex + ey + 54).
Proof.
  intros Hx Hy He. rewrite fmul_spec by assumption.
  unfold canonical in *.
  assert (Hq : 2 ^ 104 <= Zpos mx * Zpos my < 2 ^ 106).
  { change (2 ^ 104) with (2 ^ 52 * 2 ^ 52).
    change (2 ^ 106) with (2 ^ 53 * 2 ^ 53). nia. }
  assert (Hd1 : 105 <= Zdigits2 (Zpos mx * Zpos my / 1))
    by (rewrite Z.div_1_r; apply digits_ge;
        [ lia | change (105 - 1) with 104; lia ]).
  assert (Hd2 : Zdigits2 (Zpos mx * Zpos my / 1) <= 106)
    by (rewrite Z.div_1_r; apply digits_le; lia).
  pose proof (rounded_correct (Zpos mx * Zpos my) 1 (ex + ey)
                (IZR (Zpos mx) * float64.bpow ex
                 * (IZR (Zpos my) * float64.bpow ey))
                105 106 ltac:(lia) ltac:(lia)) as H.
  replace (ex + ey + 105 - 53) with (ex + ey + 52) in H by lia.
  replace (ex + ey + 106 - 52) with (ex + ey + 54) in H by lia.
  apply H; [ | lia ].
  rewrite mult_IZR, bpow_add.
  set (a := IZR (Zpos mx)) in *. set (b := IZR (Zpos my)) in *.
  set (x := float64.bpow ex) in *. set (y := float64.bpow ey) in *.
  clearbody a b x y.
  field.
Qed.

Local Open Scope R_scope.

Lemma Rabs_le_inv (x a : R) : Rabs x <= a -> - a <= x <= a.
Proof. unfold Rabs. destruct (Rcase_abs x); lra. Qed.

(** Four roundings, each within [u] of what it rounds, stay within [8 u]
    of the exact quotient. *)
Lemma four_roundings (c p a b q r u : R) :
  0 < c -> 0 < p -> 0 <= u <= 1 / 1000 ->
  Rabs (a - c) <= c * u ->
  Rabs (b - p) <= p * u ->
  Rabs (q - a / b) <= a / b * u ->
  Rabs (r - q * 100) <= q * 100 * u ->
  Rabs (r - 100 * c / p) <= 100 * c / p * (8 * u).
Proof.
  intros Hc Hp Hu Ha Hb Hq Hr.
  apply Rabs_le_inv in Ha, Hb, Hq, Hr.
  assert (Hb0 : 0 < b) by nra.
  assert (Ha0 : 0 < a) by nra.
  set (al := a / b) in *.
  assert (Hal : a = al * b) by (unfold al; field; lra).
  set (rho := c / p).
  assert (Hrho : c = rho * p) by (unfold rho; field; lra).
  replace (100 * c / p) with (100 * rho) by (unfold rho; field; lra).
  clearbody al rho. subst a c.
  assert (Hal0 : 0 < al) by nra.
  assert (Hrho0 : 0 < rho) by nra.
  assert (H1 : al * (1 - u) <= rho * (1 + u)).
  { assert ((al * (1 - u) - rho * (1 + u)) * p <= 0) by nra. nra. }
  assert (H2 : rho * (1 - u) <= al * (1 + u)).
  { assert ((rho * (1 - u) - al * (1 + u)) * p <= 0) by nra. nra. }
  assert (Hq1 : q <= al * (1 + u)) by lra.
  assert (Hq2 : al * (1 - u) <= q) by lra.
  assert (Hr1 : r <= 100 * q * (1 + u)) by lra.
  assert (Hr2 : 100 * q * (1 - u) <= r) by lra.
  assert (Hq0 : 0 <= q) by nra.
  assert (Hpu : 0 < 1 + u) by lra.
  assert (Hmu : 0 < 1 - u) by lra.
  assert (Hup : r <= 100 * rho * (1 + 8 * u)).
  { assert (E1 : q * (1 + u) <= al * (1 + u) * (1 + u))
      by (apply Rmult_le_compat_r; lra).
    assert (E2 : r <= 100 * (al * (1 + u) * (1 + u))) by lra.
    assert (E3 : al * (1 - u) * ((1 + u) * (1 + u))
                 <= rho * (1 + u) * ((1 + u) * (1 + u)))
      by (apply Rmult_le_compat_r; [ nra | exact H1 ]).
    assert (E4 : (1 + u) * ((1 + u) * (1 + u)) <= (1 + 8 * u) * (1 - u))
      by nra.
    assert (E5 : rho * ((1 + u) * ((1 + u) * (1 + u)))
                 <= rho * ((1 + 8 * u) * (1 - u)))
      by (apply Rmult_le_compat_l; lra).
    assert (E6 : r * (1 - u) <= 100 * rho * (1 + 8 * u) * (1 - u)).
    { apply Rle_trans with (100 * (al * (1 + u) * (1 + u)) * (1 - u)).
      - apply Rmult_le_compat_r; lra.
      - lra. }
    apply Rmult_le_reg_r with (1 - u); lra. }
  assert (Hdn : 100 * rho * (1 - 8 * u) <= r).
  { assert (E1 : al * (1 - u) * (1 - u) <= q * (1 - u))
      by (apply Rmult_le_compat_r; lra).
    assert (E2 : 100 * (al * (1 - u) * (1 - u)) <= r) by lra.
    assert (E3 : rho * (1 - u) * ((1 - u) * (1 - u))
                 <= al * (1 + u) * ((1 - u) * (1 - u)))
      by (apply Rmult_le_compat_r; [ nra | exact H2 ]).
    assert (E4 : (1 - 8 * u) * (1 + u) <= (1 - u) * ((1 - u) * (1 - u)))
      by nra.
    assert (E5 : rho * ((1 - 8 * u) * (1 + u))
                 <= rho * ((1 - u) * ((1 - u) * (1 - u))))
      by (apply Rmult_le_compat_l; lra).
    assert (E6 : 100 * rho * (1 - 8 * u) * (1 + u) <= r * (1 + u)).
    { apply Rle_trans with (100 * (al * (1 - u) * (1 - u)) * (1 + u)).
      - lra.
      - apply Rmult_le_compat_r; lra. }
    apply Rmult_le_reg_r with (1 + u); lra. }
  apply Rabs_le. split; lra.
Qed.

Local Close Scope R_scope.

(** *** The percentage *)

Lemma hundred_eq :
  float64.of_int 100 = S754_finite false 7036874417766400 (-46).
Proof. reflexivity. Qed.

Lemma hundred_value :
  (IZR 7036874417766400 * float64.bpow (-46) = 100)%R.
Proof.
  change 7036874417766400 with (100 * 2 ^ 46).
  rewrite mult_IZR, <- (bpow_IZR 46), Rmult_assoc by lia.
  change (-46) with (- (46)).
  rewrite (Rmult_comm (float64.bpow 46)), bpow_opp. lra.
Qed.

Lemma one_value : (IZR (2 ^ 52) * float64.bpow (-52) = 1)%R.
Proof.
  rewrite <- (bpow_IZR 52) by lia. change (-52) with (- (52)).
  rewrite Rmult_comm. apply bpow_opp.
Qed.

(** [percent c p] for [0 < c <= p < 2 ^ 63]: finite, at most 100, and
    within [2 ^ -50] of [100 * c / p] in relative terms. *)
Lemma percent_correct (c p : Z) :
  0 < c <= p -> p < 2 ^ 63 ->
  exists m e,
    percent c p = S754_finite false m e
    /\ canonical m
    /\ SFleb (percent c p) (float64.of_int 100) = true
    /\ (Rabs (float64.to_R (percent c p) - 100 * IZR c / IZR p)
        <= 100 * IZR c / IZR p * float64.bpow (-50))%R.
Proof.
  intros Hc Hp. unfold percent.
  pose proof (of_int_mono c p Hc ltac:(lia)) as Hmono.
  destruct (of_int_correct c ltac:(lia))
    as (mc & ec & Hfc & Hmc & Hec & Herrc & _).
  destruct (of_int_correct p ltac:(lia))
    as (mp & ep & Hfp & Hmp & Hep & Herrp & _).
  rewrite Hfc, Hfp in Hmono |- *. cbn [float64.to_R cond_Zopp] in Hmono.
  destruct (fdiv_correct mc mp ec ep Hmc Hmp ltac:(lia))
    as (mq & eq & Hfq & Hmq & Heq & Herrq & Hubq).
  rewrite Hfq, hundred_eq.
  assert (Hm100 : canonical 7036874417766400)
    by (unfold canonical; cbn; lia).
  destruct (fmul_correct mq 7036874417766400 eq (-46) Hmq Hm100 ltac:(lia))
    as (mr & er & Hfr & Hmr & Her & Herrr & Hubr).
  rewrite Hfr. exists mr, er.
  rewrite hundred_value in Herrr, Hubr.
  assert (Hcpos : (0 < IZR c)%R) by (apply IZR_lt; lia).
  assert (Hppos : (0 < IZR p)%R) by (apply IZR_lt; lia).
  assert (Hu : (0 <= float64.bpow (-53) <= 1 / 1000)%R).
  { pose proof (bpow_pos (-53)). pose proof (bpow_opp 53) as H1.
    rewrite (bpow_IZR 53) in H1 by lia.
    change (- (53)) with (-53) in H1.
    change (IZR (2 ^ 53)) with 9007199254740992%R in H1.
    split; nra. }
  set (a := (IZR (Zpos mc) * float64.bpow ec)%R) in *.
  set (b := (IZR (Zpos mp) * float64.bpow ep)%R) in *.
  set (q := (IZR (Zpos mq) * float64.bpow eq)%R) in *.
  set (r := (IZR (Zpos mr) * float64.bpow er)%R) in *.
  assert (Ha : (0 < a)%R).
  { apply Rabs_le_inv in Herrc. nra. }
  assert (Hb : (0 < b)%R).
  { apply Rabs_le_inv in Herrp. nra. }
  (* the quotient is at most one *)
  assert (Hq1 : (q <= 1)%R).
  { rewrite <- one_value. apply Hubq; [ cbn; lia | ].
    rewrite one_value.
    apply Rmult_le_reg_r with b; [ exact Hb | ].
    replace (a / b * b)%R with a by (field; lra). lra. }
  assert (Hq0 : (0 <= q)%R).
  { unfold q. pose proof (bpow_pos eq).
    assert (0 < IZR (Zpos mq))%R by (apply IZR_lt; lia). nra. }
  (* and the product at most one hundred *)
  assert (Hr100 : (r <= 100)%R).
  { rewrite <- hundred_value. apply Hubr; [ cbn; lia | ].
    rewrite hundred_value. nra. }
  split; [ reflexivity | split; [ exact Hmr | split ] ].
  - apply leb_canonical; [ exact Hmr | exact Hm100 | ].
    fold r. rewrite hundred_value. exact Hr100.
  - cbn [float64.to_R cond_Zopp]. fold r.
    replace (float64.bpow (-50)) with (8 * float64.bpow (-53))%R.
    + apply (four_roundings (IZR c) (IZR p) a b q r (float64.bpow (-53)));
        assumption.
    + change (-50) with (3 + -53). rewrite bpow_add, (bpow_IZR 3) by lia.
      change (IZR (2 ^ 3)) with 8%R. reflexivity.
Qed.

Section Properties.

Context {W : Type}.
Variable sys : Sys W.
Variable GetFileMincore :
  os.File -> Z -> W -> (option Mincore * option error) * W.
Variable fname : string.
Variable filter : os.File -> W -> option error * W.

(** C1.  A call that returns without error has run the residency probe,
    and its record satisfies [Pages == Cached + Uncached] in Go's [int]
    arithmetic, with [Cached] and [Uncached] the report's cached and miss
    counts converted to [int] (both zero when the report is absent).  The
    equation also holds over the integers whenever the sum fits an
    [int]. *)
Theorem pages_eq_cached_plus_uncached (w : W) pcs w' tr :
    run sys GetFileMincore fname filter w = ((pcs, None), (w', tr)) ->
    (exists f size report,
        In (EvMincore f size (report, None)) tr
        /\ match report with
           | Some mc => Cached pcs = goint.of_Z (mc_Cached mc)
                        /\ Uncached pcs = goint.of_Z (mc_Miss mc)
           | None => Cached pcs = 0 /\ Uncached pcs = 0
           end)
    /\ Pages pcs = goint.add (Cached pcs) (Uncached pcs)
    /\ (goint.in_range (Cached pcs + Uncached pcs) ->
        Pages pcs = Cached pcs + Uncached pcs).
Proof.
  intros Hrun. unfold_pipeline. split_on_results Hrun.
  all: split;
    [ eexists _, _, _; split;
      [ cbn [In]; repeat first [ left; reflexivity | right ]
      | cbn; auto ]
    | cbn; split; [ reflexivity | intros Hfit ] ].
  all: try reflexivity.
  all: unfold goint.add; now rewrite wrap_in_range.
Qed.

(** C2, as the code has it.  For a call that returns without error with
    [Pages > 0] and nonnegative [Cached] and [Uncached], [Pages] is their
    sum over the integers and [Percent] is the [float64] value of
    [(float64(Cached) / float64(Pages)) * 100.00]: a number from 0 to 100
    inclusive, equal to [100 * Cached / Pages] up to rounding, with a
    relative error of at most [2 ^ -50]. *)
Theorem percent_within_rounding (w : W) pcs w' tr :
    run sys GetFileMincore fname filter w = ((pcs, None), (w', tr)) ->
    0 <= Cached pcs -> 0 <= Uncached pcs -> 0 < Pages pcs ->
    Pages pcs = Cached pcs + Uncached pcs
    /\ Percent pcs = percent (Cached pcs) (Pages pcs)
    /\ float64.leb float64.zero (Percent pcs) = true
    /\ float64.leb (Percent pcs) (float64.of_int 100) = true
    /\ (Rabs (float64.to_R (Percent pcs)
              - 100 * IZR (Cached pcs) / IZR (Pages pcs))
        <= 100 * IZR (Cached pcs) / IZR (Pages pcs)
           * float64.bpow (-50))%R.
Proof.
  intros Hrun. unfold_pipeline. split_on_results Hrun.
  all: intros Hc Hu Hp; try (exfalso; lia).
  all: match goal with
       | |- context [goint.add (goint.of_Z ?c) (goint.of_Z ?m)] =>
           pose proof (add_nonneg_positive (goint.of_Z c) (goint.of_Z m)
                         (wrap_range c) (wrap_range m) Hc Hu Hp) as Hsum;
           pose proof (wrap_range c) as Hrange;
           pose proof (wrap_range (goint.of_Z c + goint.of_Z m)) as Hrange';
           fold (goint.add (goint.of_Z c) (goint.of_Z m)) in Hrange';
           fold (percent (goint.of_Z c)
                         (goint.add (goint.of_Z c) (goint.of_Z m)));
           set (C := goint.of_Z c) in *;
           set (P := goint.add C (goint.of_Z m)) in *
       end.
  all: unfold goint.in_range, goint.max_int in Hrange, Hrange';
       change goint.half with (2 ^ 63) in Hrange, Hrange'.
  all: split; [ exact Hsum | split; [ reflexivity | ] ].
  all: destruct (Z.eq_dec C 0) as [Hzero | Hnonzero].
  all: try (rewrite Hzero;
            destruct (of_int_correct P ltac:(lia))
              as (mp & ep & Hfp & _);
            unfold percent; rewrite Hfp, hundred_eq;
            change (float64.of_int 0) with (S754_zero false);
            cbn [float64.div float64.mul SFdiv SFmul xorb float64.to_R
                 float64.leb SFleb SFcompare float64.zero];
            split; [ reflexivity | split; [ reflexivity | ] ];
            replace (100 * 0 / IZR P)%R with 0%R
              by (unfold Rdiv; ring);
            rewrite Rminus_0_r, Rabs_R0; lra).
  all: destruct (percent_correct C P ltac:(lia) ltac:(lia))
         as (mr & er & Hfin & _ & Hle & Herr).
  all: split; [ rewrite Hfin; reflexivity | split; assumption ].
Qed.

(** C3.  Under the provider's contract for an empty range, a probe over a
    resolved size of 0 returns success with the record exactly as it stood
    before the aggregation statements: [Pages], [Cached] and [Uncached]
    are 0 and [Percent] is the zero value, not a NaN; the division has
    contributed nothing. *)
Theorem empty_target_is_all_zero (w : W) pcs err w' tr f r :
    provider_skips_empty GetFileMincore ->
    run sys GetFileMincore fname filter w = ((pcs, err), (w', tr)) ->
    In (EvMincore f 0 r) tr ->
    err = None
    /\ (exists now mtime,
          pcs = set_Mtime (set_Timestamp
                             (set_Size (PcStatus_named fname) 0) now) mtime)
    /\ Size pcs = 0 /\ Pages pcs = 0 /\ Cached pcs = 0 /\ Uncached pcs = 0
    /\ Percent pcs = float64.zero
    /\ float64.is_nan (Percent pcs) = false.
Proof.
  intros Hskip Hrun Hin. unfold_pipeline. split_on_results Hrun.
  all: split_membership Hin.
  all: simpl_record.
  all: try match goal with
           | Hsz : os.Size _ = 0 |- _ => rewrite Hsz in *
           end.
  all: try match goal with
       | Hp : GetFileMincore ?f 0 ?w0 = _ |- _ =>
           pose proof (Hskip f w0) as Hnone; rewrite Hp in Hnone;
           cbn [fst] in Hnone; try discriminate Hnone
       end.
  all: split; [ reflexivity | ].
  all: split; [ eexists _, _; reflexivity | cbn; auto 10 ].
Qed.

(** C4.  When the filter returns an error on the opened handle, the call
    returns the record with only [Name] set, together with that very
    error; the calls made are the open, the filter and the close of the
    handle, and nothing else: no stat, no device-size query, no probe. *)
Theorem filter_error_short_circuits (w : W) f w1 e w2 :
    os_Open sys fname w = (inl f, w1) ->
    filter f w1 = (Some e, w2) ->
    exists pcs c w',
      run sys GetFileMincore fname filter w
        = ((pcs, Some e),
           (w', [EvOpen fname (inl f); EvFilter f (Some e); EvClose f c]))
      /\ File_Close sys f w2 = (c, w')
      /\ Name pcs = fname /\ Size pcs = 0 /\ Pages pcs = 0
      /\ Cached pcs = 0 /\ Uncached pcs = 0
      /\ Percent pcs = float64.zero.
Proof.
  intros Hopen Hfilter.
  exists (PcStatus_named fname).
  destruct (File_Close sys f w2) as [c w'] eqn:Hclose.
  exists c, w'. unfold_pipeline.
  rewrite Hopen. cbn [fst snd app]. rewrite Hfilter. cbn [fst snd app].
  rewrite Hclose. cbn. auto 10.
Qed.

(** C5.  Block-device detection is the [os.Stat] of the path.  When it
    reports a block device, [Size] is what the device-size query returned:
    any query in the trace that succeeded gave [Size], and a call without
    error has made one.  When it reports anything else, no query is made
    and [Size] is the size reported by the [Stat] of the handle. *)
Theorem size_of_block_device_or_file (w : W) pcs err w' tr info :
    run sys GetFileMincore fname filter w = ((pcs, err), (w', tr)) ->
    In (EvStat fname (inl info)) tr ->
    if block_device_mode (os.Mode info)
    then (forall g req size,
             In (EvIoctl g req size 0) tr -> Size pcs = size)
         /\ (err = None ->
             exists g size,
               In (EvIoctl g BLKGETSIZE64 size 0) tr /\ Size pcs = size)
    else (forall g req size errno, ~ In (EvIoctl g req size errno) tr)
         /\ exists f finfo,
              In (EvFileStat f (inl finfo)) tr
              /\ Size pcs = os.Size finfo.
Proof.
  intros Hrun Hin. unfold_pipeline. split_on_results Hrun.
  all: split_membership Hin.
  all: match goal with
       | Hb : block_device_mode _ = _ |- _ => rewrite Hb
       end.
  all: split.
  all: lazymatch goal with
       | |- forall g req size, In _ _ -> _ =>
           intros g' req' size' Hq; split_membership Hq;
           first [ reflexivity
                 | match goal with
                   | Hz : negb (0 =? 0) = true |- _ => discriminate Hz
                   end ]
       | |- forall g req size errno, ~ In _ _ =>
           intros g' req' size' errno' Hq; split_membership Hq
       | |- _ = None -> _ =>
           intros Herr;
           first [ discriminate Herr
                 | match goal with
                   | Hz : negb (?z =? 0) = false |- _ =>
                       apply negb_false_iff, Z.eqb_eq in Hz; subst z
                   end;
                   eexists _, _; split;
                   [ cbn [In]; repeat first [ left; reflexivity | right ]
                   | reflexivity ] ]
       | |- exists _, _ =>
           eexists _, _; split;
           [ cbn [In]; repeat first [ left; reflexivity | right ]
           | reflexivity ]
       end.
Qed.

(** C6, as the code has it.  Every device-size query in the trace is the
    [BLKGETSIZE64] request on a handle that [getBlockDeviceSize] opened
    itself, by a second [os.Open] of the path, after the filter and both
    stats ran on and beside the pipeline's handle; that second handle is
    closed right after the query, and nothing is opened or queried
    afterwards. *)
Theorem device_size_query_on_second_handle (w : W) pcs err w' tr
      g req size errno :
    run sys GetFileMincore fname filter w = ((pcs, err), (w', tr)) ->
    In (EvIoctl g req size errno) tr ->
    req = BLKGETSIZE64
    /\ exists f finfo info c rest,
         tr = [EvOpen fname (inl f); EvFilter f None;
               EvFileStat f (inl finfo); EvStat fname (inl info);
               EvOpen fname (inl g); EvIoctl g BLKGETSIZE64 size errno;
               EvClose g c] ++ rest
         /\ block_device_mode (os.Mode info) = true
         /\ forallb (fun ev => negb (is_open_event ev)
                               && match ev with
                                  | EvIoctl _ _ _ _ => false
                                  | _ => true
                                  end) rest = true.
Proof.
  intros Hrun Hin. unfold_pipeline. split_on_results Hrun.
  all: split_membership Hin.
  all: split; [ reflexivity | ].
  all: eexists _, _, _, _, _; split; [ cbn [app]; reflexivity | ].
  all: split; [ assumption | reflexivity ].
Qed.

(** C7.  When the opened handle stats as a directory, the call returns the
    error "file is a directory" and the record has only [Name] set. *)
Theorem directory_is_rejected (w : W) f w1 w2 finfo w3 :
    os_Open sys fname w = (inl f, w1) ->
    filter f w1 = (None, w2) ->
    File_Stat sys f w2 = (inl finfo, w3) ->
    os.IsDir finfo = true ->
    exists pcs st,
      run sys GetFileMincore fname filter w
        = ((pcs, Some (errors_New "file is a directory")), st)
      /\ Name pcs = fname /\ Size pcs = 0 /\ Timestamp pcs = 0
      /\ Mtime pcs = 0 /\ Pages pcs = 0 /\ Cached pcs = 0
      /\ Uncached pcs = 0 /\ Percent pcs = float64.zero.
Proof.
  intros Hopen Hfilter Hstat Hdir.
  exists (PcStatus_named fname).
  destruct (File_Close sys f w3) as [c w'] eqn:Hclose.
  unfold_pipeline.
  rewrite Hopen. cbn [fst snd app]. rewrite Hfilter. cbn [fst snd app].
  rewrite Hstat. cbn [fst snd app]. rewrite Hdir. cbn [fst snd app].
  rewrite Hclose. eexists.
  split; [ reflexivity | cbn; auto 10 ].
Qed.

(** C8.  Once the target is open, however the call ends, its last action
    is to close that handle: the trace ends with the close of the handle
    the first call returned, and the kernel state handed back is the one
    that close left. *)
Theorem handle_closed_on_every_path (w : W) f w1 pcs err w' tr :
    os_Open sys fname w = (inl f, w1) ->
    run sys GetFileMincore fname filter w = ((pcs, err), (w', tr)) ->
    exists mid c w2,
      tr = EvOpen fname (inl f) :: mid ++ [EvClose f c]
      /\ File_Close sys f w2 = (c, w').
Proof.
  intros Hopen Hrun. unfold_pipeline. rewrite Hopen in Hrun.
  cbn [fst snd app] in Hrun. split_on_results Hrun.
  all: match goal with
       | |- exists mid c w2, ?l = _ /\ _ => exists (removelast (tl l))
       end;
       cbn [tl removelast]; eexists _, _;
       split; [ reflexivity | eassumption ].
Qed.

(** C9.  When the provider returns no report and no error, the call
    succeeds; [Pages], [Cached], [Uncached] and [Percent] keep their zero
    values, and [Name], [Size], [Timestamp] and [Mtime] are the path, the
    size handed to the provider, the time read just before the probe, and
    the modification time from the [Stat] of the handle. *)
Theorem absent_report_is_success (w : W) pcs err w' tr f size :
    run sys GetFileMincore fname filter w = ((pcs, err), (w', tr)) ->
    In (EvMincore f size (None, None)) tr ->
    err = None
    /\ Pages pcs = 0 /\ Cached pcs = 0 /\ Uncached pcs = 0
    /\ Percent pcs = float64.zero
    /\ Name pcs = fname /\ Size pcs = size
    /\ exists now finfo,
         In (EvNow now) tr /\ In (EvFileStat f (inl finfo)) tr
         /\ Timestamp pcs = now /\ Mtime pcs = os.ModTime finfo.
Proof.
  intros Hrun Hin. unfold_pipeline. split_on_results Hrun.
  all: split_membership Hin.
  all: repeat (split; [ reflexivity | ]).
  all: eexists _, _; cbn [In]; split; [ | split ];
    [ repeat first [ left; reflexivity | right ]
    | repeat first [ left; reflexivity | right ]
    | split; reflexivity ].
Qed.

(** C10.  When the [Stat] of the handle reports a directory, the trace is
    the open, the filter, that stat and the close: the path is not
    inspected, no device-size query is issued, the clock is not read and
    the provider is not called. *)
Theorem directory_check_comes_first (w : W) pcs err w' tr f finfo :
    run sys GetFileMincore fname filter w = ((pcs, err), (w', tr)) ->
    In (EvFileStat f (inl finfo)) tr ->
    os.IsDir finfo = true ->
    (exists c, tr = [EvOpen fname (inl f); EvFilter f None;
                     EvFileStat f (inl finfo); EvClose f c])
    /\ existsb after_directory_check tr = false
    /\ List.length (List.filter is_open_event tr) = 1%nat.
Proof.
  intros Hrun Hin Hdir. unfold_pipeline. split_on_results Hrun.
  all: split_membership Hin.
  all: try congruence.
  split; [ eexists; reflexivity | split; reflexivity ].
Qed.

End Properties.

(** ** The properties at work on the small kernel *)

Lemma probe_eq (fname : string)
    (filter : os.File -> sim.World -> option error * sim.World) :
  run sim.kernel sim.GetFileMincore fname filter sim.disk
  = ((sim.record fname filter, sim.failure fname filter),
     (sim.final fname filter, sim.trace fname filter)).
Proof.
  unfold sim.record, sim.failure, sim.final, sim.trace, sim.probe.
  destruct (run sim.kernel sim.GetFileMincore fname filter sim.disk)
    as [[pcs err] [w tr]].
  reflexivity.
Defined.

Lemma sim_skips_empty : provider_skips_empty sim.GetFileMincore.
Proof. intros f w. reflexivity. Defined.

(** An 8192-byte file read into the cache: two pages, both resident. *)
Example probe_fully_cached :
  sim.failure "/data/hot" sim.accept = None
  /\ sim.record "/data/hot" sim.accept
     = {| Name := "/data/hot"; Size := 8192; Timestamp := 1700000100;
          Mtime := 1700000000; Pages := 2; Cached := 2; Uncached := 0;
          Percent := float64.of_int 100 |}.
Proof. split; vm_compute; reflexivity. Qed.

(** The same file with one page dropped from the cache. *)
Example probe_half_cached :
  sim.failure "/data/warm" sim.accept = None
  /\ sim.record "/data/warm" sim.accept
     = {| Name := "/data/warm"; Size := 8192; Timestamp := 1700000100;
          Mtime := 1700000000; Pages := 2; Cached := 1; Uncached := 1;
          Percent := float64.of_int 50 |}.
Proof. split; vm_compute; reflexivity. Qed.

(** A path that does not exist: the open fails and nothing else is called. *)
Example probe_missing_path :
  sim.probe "/nope" sim.accept
  = ((PcStatus_named "/nope",
      Some (fmt_Errorf "could not open file for read: %v"
                       (PathError "open" "/nope" sim.ENOENT))),
     (sim.disk, [EvOpen "/nope" (inr (PathError "open" "/nope" sim.ENOENT))])).
Proof. reflexivity. Qed.

(** The guard before the aggregation is on the report being absent, not on
    its counts: a report present with both counts at zero would reach the
    division as [0.0 / 0.0]. *)
Example aggregate_of_empty_report :
  Percent (aggregate (PcStatus_named "f") (mkMincore 0 0)) = S754_nan.
Proof. reflexivity. Qed.

(** An 8192-byte file with one of its two pages resident. *)
Lemma pages_eq_cached_plus_uncached_witness :
  sim.failure "/data/warm" sim.accept = None
  /\ Pages (sim.record "/data/warm" sim.accept) = 2
  /\ Pages (sim.record "/data/warm" sim.accept)
     = goint.add (Cached (sim.record "/data/warm" sim.accept))
                 (Uncached (sim.record "/data/warm" sim.accept)).
Proof.
  split; [ reflexivity | split; [ reflexivity | ] ].
  destruct (pages_eq_cached_plus_uncached sim.kernel sim.GetFileMincore
              "/data/warm" sim.accept sim.disk
              (sim.record "/data/warm" sim.accept)
              (sim.final "/data/warm" sim.accept)
              (sim.trace "/data/warm" sim.accept)
              (probe_eq "/data/warm" sim.accept))
    as (_ & Hsum & _).
  exact Hsum.
Defined.

(** A 409,600-byte file with 7 of its 100 pages resident: [Percent] is
    [7.000000000000001], one unit in the last place above 7. *)
Lemma percent_odd :
  Percent (sim.record "/data/odd" sim.accept)
  = S754_finite false 7881299347898369 (-50).
Proof. vm_compute. reflexivity. Qed.

(** C2, as stated, fails there: the field does not stand for the exact
    quotient [100 * 7 / 100]. *)
Lemma percent_is_rounded_not_exact :
  sim.failure "/data/odd" sim.accept = None
  /\ Pages (sim.record "/data/odd" sim.accept) = 100
  /\ Cached (sim.record "/data/odd" sim.accept) = 7
  /\ Uncached (sim.record "/data/odd" sim.accept) = 93
  /\ ~ percent_is_exact (sim.record "/data/odd" sim.accept).
Proof.
  repeat (split; [ reflexivity | ]).
  unfold percent_is_exact. rewrite percent_odd.
  change (Cached (sim.record "/data/odd" sim.accept)) with 7.
  change (Pages (sim.record "/data/odd" sim.accept)) with 100.
  cbn [float64.to_R cond_Zopp]. intros Heq.
  pose proof (bpow_opp 50) as Hinv.
  rewrite (bpow_IZR 50) in Hinv by lia.
  change (- (50)) with (-50) in Hinv.
  change (IZR (2 ^ 50)) with 1125899906842624%R in Hinv.
  set (x := float64.bpow (-50)) in *. clearbody x. nra.
Qed.

Lemma percent_within_rounding_witness :
  sim.failure "/data/odd" sim.accept = None
  /\ 0 < Pages (sim.record "/data/odd" sim.accept)
  /\ float64.leb (Percent (sim.record "/data/odd" sim.accept))
                 (float64.of_int 100) = true
  /\ (Rabs (float64.to_R (Percent (sim.record "/data/odd" sim.accept))
            - 100 * IZR 7 / IZR 100)
      <= 100 * IZR 7 / IZR 100 * float64.bpow (-50))%R.
Proof.
  split; [ reflexivity | split; [ reflexivity | ] ].
  destruct (percent_within_rounding sim.kernel sim.GetFileMincore
              "/data/odd" sim.accept sim.disk
              (sim.record "/data/odd" sim.accept)
              (sim.final "/data/odd" sim.accept)
              (sim.trace "/data/odd" sim.accept)
              (probe_eq "/data/odd" sim.accept))
    as (_ & _ & _ & Hle & Herr).
  - vm_compute. discriminate.
  - vm_compute. discriminate.
  - reflexivity.
  - split; [ exact Hle | exact Herr ].
Defined.

(** An empty regular file. *)
Lemma empty_target_is_all_zero_witness :
  In (EvMincore (os.mkFile 3) 0 (None, None))
     (sim.trace "/data/empty" sim.accept)
  /\ sim.failure "/data/empty" sim.accept = None
  /\ Percent (sim.record "/data/empty" sim.accept) = float64.zero.
Proof.
  assert (Hin : In (EvMincore (os.mkFile 3) 0 (None, None))
                   (sim.trace "/data/empty" sim.accept))
    by (vm_compute; auto 10).
  split; [ exact Hin | ].
  destruct (empty_target_is_all_zero sim.kernel sim.GetFileMincore
              "/data/empty" sim.accept sim.disk _ _ _ _ _ _
              sim_skips_empty (probe_eq "/data/empty" sim.accept) Hin)
    as (Herr & _ & _ & _ & _ & _ & Hpct & _).
  split; assumption.
Defined.

(** A filter that rejects everything, on the block device. *)
Lemma filter_error_short_circuits_witness :
  exists pcs c w',
    sim.probe "/dev/sdb" sim.reject
    = ((pcs, Some (OtherError "rejected by policy")),
       (w', [EvOpen "/dev/sdb" (inl (os.mkFile 3));
             EvFilter (os.mkFile 3) (Some (OtherError "rejected by policy"));
             EvClose (os.mkFile 3) c]))
    /\ Name pcs = "/dev/sdb" /\ Size pcs = 0.
Proof.
  destruct (filter_error_short_circuits sim.kernel sim.GetFileMincore
              "/dev/sdb" sim.reject sim.disk (os.mkFile 3)
              (snd (sim.Open "/dev/sdb" sim.disk))
              (OtherError "rejected by policy")
              (snd (sim.Open "/dev/sdb" sim.disk))
              eq_refl eq_refl)
    as (pcs & c & w' & Hrun & _ & Hname & Hsize & _).
  exists pcs, c, w'. auto.
Defined.

(** The block device whose stat size is 0 and whose capacity is 1,048,576
    bytes, and the 8192-byte regular file. *)
Lemma size_of_block_device_or_file_witness :
  Size (sim.record "/dev/sdb" sim.accept) = 1048576
  /\ Size (sim.record "/data/hot" sim.accept) = 8192.
Proof.
  split.
  - pose proof (size_of_block_device_or_file sim.kernel sim.GetFileMincore
                  "/dev/sdb" sim.accept sim.disk _ _ _ _
                  (sim.info_of (sim.block_device 1048576))
                  (probe_eq "/dev/sdb" sim.accept)) as H.
    cbv beta in H.
    assert (Hin : In (EvStat "/dev/sdb"
                        (inl (sim.info_of (sim.block_device 1048576))))
                     (sim.trace "/dev/sdb" sim.accept))
      by (vm_compute; auto 10).
    specialize (H Hin).
    change (block_device_mode
              (os.Mode (sim.info_of (sim.block_device 1048576))))
      with true in H.
    destruct H as [Hq _].
    apply (Hq (os.mkFile 4) BLKGETSIZE64). vm_compute. auto 10.
  - pose proof (size_of_block_device_or_file sim.kernel sim.GetFileMincore
                  "/data/hot" sim.accept sim.disk _ _ _ _
                  (sim.info_of (sim.regular 8192 [true; true]))
                  (probe_eq "/data/hot" sim.accept)) as H.
    assert (Hin : In (EvStat "/data/hot"
                        (inl (sim.info_of (sim.regular 8192 [true; true]))))
                     (sim.trace "/data/hot" sim.accept))
      by (vm_compute; auto 10).
    specialize (H Hin).
    change (block_device_mode
              (os.Mode (sim.info_of (sim.regular 8192 [true; true]))))
      with false in H.
    destruct H as [_ (f & finfo & Hstat & Hsize)].
    rewrite Hsize.
    vm_compute in Hstat.
    repeat (destruct Hstat as [Hstat | Hstat]);
      try discriminate Hstat; try contradiction.
    inversion Hstat. reflexivity.
Defined.

(** C6, as stated, fails on a block device: the query is issued on
    descriptor 4, obtained by opening the path a second time, while the
    pipeline's handle, on which the filter ran, is descriptor 3. *)
Lemma device_size_query_reopens_the_path :
  ~ query_on_pipeline_handle (sim.trace "/dev/sdb" sim.accept).
Proof.
  intros Hclaim.
  destruct (Hclaim "/dev/sdb" (os.mkFile 3) eq_refl) as [Hsame _].
  specialize (Hsame (os.mkFile 4) BLKGETSIZE64 1048576 0).
  assert (Hin : In (EvIoctl (os.mkFile 4) BLKGETSIZE64 1048576 0)
                   (sim.trace "/dev/sdb" sim.accept))
    by (vm_compute; auto 10).
  specialize (Hsame Hin). discriminate Hsame.
Qed.

Lemma device_size_query_on_second_handle_witness :
  In (EvIoctl (os.mkFile 4) BLKGETSIZE64 1048576 0)
     (sim.trace "/dev/sdb" sim.accept)
  /\ exists f finfo info c rest,
       sim.trace "/dev/sdb" sim.accept
       = [EvOpen "/dev/sdb" (inl f); EvFilter f None;
          EvFileStat f (inl finfo); EvStat "/dev/sdb" (inl info);
          EvOpen "/dev/sdb" (inl (os.mkFile 4));
          EvIoctl (os.mkFile 4) BLKGETSIZE64 1048576 0;
          EvClose (os.mkFile 4) c] ++ rest.
Proof.
  assert (Hin : In (EvIoctl (os.mkFile 4) BLKGETSIZE64 1048576 0)
                   (sim.trace "/dev/sdb" sim.accept))
    by (vm_compute; auto 10).
  split; [ exact Hin | ].
  destruct (device_size_query_on_second_handle sim.kernel sim.GetFileMincore
              "/dev/sdb" sim.accept sim.disk _ _ _ _ _ _ _ _
              (probe_eq "/dev/sdb" sim.accept) Hin)
    as (_ & f & finfo & info & c & rest & Htr & _).
  exists f, finfo, info, c, rest. exact Htr.
Defined.

(** The directory [/data]. *)
Lemma directory_is_rejected_witness :
  exists pcs st,
    sim.probe "/data" sim.accept
    = ((pcs, Some (errors_New "file is a directory")), st)
    /\ Name pcs = "/data" /\ Size pcs = 0 /\ Pages pcs = 0.
Proof.
  destruct (directory_is_rejected sim.kernel sim.GetFileMincore
              "/data" sim.accept sim.disk (os.mkFile 3)
              (snd (sim.Open "/data" sim.disk))
              (snd (sim.Open "/data" sim.disk))
              (sim.info_of sim.directory)
              (snd (sim.Open "/data" sim.disk))
              eq_refl eq_refl eq_refl eq_refl)
    as (pcs & st & Hrun & Hname & Hsize & _ & _ & Hpages & _).
  exists pcs, st. auto.
Defined.

(** The handle is released on success and on a directory alike. *)
Lemma handle_closed_on_every_path_witness :
  (exists mid c, sim.trace "/data/hot" sim.accept
                 = EvOpen "/data/hot" (inl (os.mkFile 3))
                   :: mid ++ [EvClose (os.mkFile 3) c])
  /\ sim.is_open (os.mkFile 3) (sim.final "/data/hot" sim.accept) = false.
Proof.
  split; [ | reflexivity ].
  destruct (handle_closed_on_every_path sim.kernel sim.GetFileMincore
              "/data/hot" sim.accept sim.disk (os.mkFile 3)
              (snd (sim.Open "/data/hot" sim.disk)) _ _ _ _
              eq_refl (probe_eq "/data/hot" sim.accept))
    as (mid & c & w2 & Htr & _).
  exists mid, c. exact Htr.
Defined.

Lemma absent_report_is_success_witness :
  sim.failure "/data/empty" sim.accept = None
  /\ Size (sim.record "/data/empty" sim.accept) = 0
  /\ Pages (sim.record "/data/empty" sim.accept) = 0.
Proof.
  assert (Hin : In (EvMincore (os.mkFile 3) 0 (None, None))
                   (sim.trace "/data/empty" sim.accept))
    by (vm_compute; auto 10).
  destruct (absent_report_is_success sim.kernel sim.GetFileMincore
              "/data/empty" sim.accept sim.disk _ _ _ _ _ _
              (probe_eq "/data/empty" sim.accept) Hin)
    as (Herr & Hpages & _ & _ & _ & _ & Hsize & _).
  auto.
Defined.

Lemma directory_check_comes_first_witness :
  existsb after_directory_check (sim.trace "/data" sim.accept) = false
  /\ List.length (List.filter is_open_event (sim.trace "/data" sim.accept))
     = 1%nat.
Proof.
  assert (Hin : In (EvFileStat (os.mkFile 3)
                      (inl (sim.info_of sim.directory)))
                   (sim.trace "/data" sim.accept))
    by (vm_compute; auto 10).
  destruct (directory_check_comes_first sim.kernel sim.GetFileMincore
              "/data" sim.accept sim.disk _ _ _ _ _ _
              (probe_eq "/data" sim.accept) Hin eq_refl)
    as (_ & Hnone & Hone).
  auto.
Defined.

(** * Further properties of the package *)

Lemma script_eq (a : script.Answers) :
  run (script.kernel a) (script.provider a) "/dev/sdb" (script.filter a) 0%nat
  = ((script.record a, script.failure a), (script.final a, script.trace a)).
Proof.
  unfold script.record, script.failure, script.final, script.trace,
         script.probe.
  destruct (run (script.kernel a) (script.provider a) "/dev/sdb"
              (script.filter a) 0%nat) as [[pcs err] [w tr]].
  reflexivity.
Defined.

Lemma File_eqb_refl (f : os.File) : File_eqb f f = true.
Proof. apply Z.eqb_refl. Qed.

(** [x & 2^k] is zero exactly when bit [k] of [x] is clear. *)
Lemma land_pow2_eqb (x k : Z) :
  0 <= k -> (Z.land x (Z.shiftl 1 k) =? 0) = negb (Z.testbit x k).
Proof.
  intros Hk. rewrite Z.shiftl_1_l.
  destruct (Z.testbit x k) eqn:Hbit; cbn [negb].
  - apply Z.eqb_neq. intros Hzero.
    assert (Hk' : Z.testbit (Z.land x (2 ^ k)) k = true)
      by (rewrite Z.land_spec, Hbit, Z.pow2_bits_true by lia; reflexivity).
    rewrite Hzero, Z.bits_0 in Hk'. discriminate.
  - apply Z.eqb_eq, Z.bits_inj'. intros n Hn.
    rewrite Z.land_spec, Z.bits_0.
    destruct (Z.eq_dec k n) as [-> | Hne].
    + rewrite Hbit. reflexivity.
    + rewrite Z.pow2_bits_false by lia. apply andb_false_r.
Qed.

Lemma block_device_mode_bits (mode : Z) :
  block_device_mode mode = Z.testbit mode 26 && negb (Z.testbit mode 21).
Proof.
  unfold block_device_mode, os.ModeDevice, os.ModeCharDevice.
  rewrite !land_pow2_eqb by lia. rewrite negb_involutive. reflexivity.
Qed.

Lemma rne_exact (M D : Z) : 0 < D -> rne (M * D) D = M.
Proof.
  intros HD. unfold rne.
  rewrite Z.mod_mul, Z.div_mul by lia.
  destruct (Z.compare_spec (2 * 0) D); first [ reflexivity | lia ].
Qed.

(** A number divided by itself is exactly one, and one hundred times one
    is one hundred: [percent p p] is [100.0] with no rounding error. *)
Lemma percent_of_all (p : Z) :
  0 < p < 2 ^ 63 -> percent p p = float64.of_int 100.
Proof.
  intros Hp. unfold percent.
  destruct (of_int_correct p ltac:(lia)) as (m & e & Hf & Hm & _).
  rewrite Hf. rewrite fdiv_spec by (assumption || lia).
  unfold canonical in Hm.
  replace (e - e - 53) with (-53) by lia.
  assert (Hone : rounded (Zpos m * 2 ^ 53) (Zpos m) (-53) = (2 ^ 52, -52)).
  { unfold rounded.
    replace (Zpos m * 2 ^ 53 / Zpos m) with (2 ^ 53)
      by (rewrite Z.mul_comm, Z.div_mul by lia; reflexivity).
    change (Zdigits2 (2 ^ 53) - 53) with 1.
    replace (Zpos m * 2 ^ 53) with (2 ^ 52 * (Zpos m * 2 ^ 1))
      by (change (2 ^ 53) with (2 ^ 52 * 2 ^ 1); ring).
    rewrite rne_exact by lia. reflexivity. }
  rewrite Hone. vm_compute. reflexivity.
Qed.

(** Zero divided by a positive number is zero, and stays zero. *)
Lemma percent_of_none (p : Z) :
  0 < p < 2 ^ 63 -> percent 0 p = float64.zero.
Proof.
  intros Hp. unfold percent.
  destruct (of_int_correct p ltac:(lia)) as (m & e & Hf & _).
  rewrite Hf, hundred_eq. reflexivity.
Qed.

Section Helpers.

Context {W : Type}.
Variable sys : Sys W.

(** X6.  [_isBlockDevice] makes one call, the [os.Stat] of the path.  It
    answers [true] exactly when that call succeeds with bit 26
    ([ModeDevice]) set and bit 21 ([ModeCharDevice]) clear in the mode, and
    never answers [true] together with an error. *)
Theorem isBlockDevice_reads_two_mode_bits (path : string) (w : W)
      (t : list Event) b err w' t' :
    _isBlockDevice sys path (w, t) = ((b, err), (w', t')) ->
    (b = true <->
     exists info, fst (os_Stat sys path w) = inl info
                  /\ Z.testbit (os.Mode info) 26 = true
                  /\ Z.testbit (os.Mode info) 21 = false)
    /\ (b = true -> err = None)
    /\ (err = None <-> exists info, fst (os_Stat sys path w) = inl info)
    /\ w' = snd (os_Stat sys path w)
    /\ t' = t ++ [EvStat path (fst (os_Stat sys path w))].
Proof.
  unfold _isBlockDevice, bind, call, ret. cbn [fst snd].
  destruct (os_Stat sys path w) as [[info | e] w1]; cbn [fst snd];
    intros H; inversion H; subst; clear H.
  - rewrite block_device_mode_bits.
    repeat split; try reflexivity.
    + intros Hb. apply andb_true_iff in Hb. destruct Hb as [H26 H21].
      apply negb_true_iff in H21. exists info. auto.
    + intros (info' & Heq & H26 & H21). inversion Heq; subst.
      rewrite H26, H21. reflexivity.
    + intros _. exists info. reflexivity.
  - repeat split; try reflexivity; try discriminate.
    + intros (info' & Heq & _). discriminate.
    + intros (info' & Heq). discriminate.
Qed.

(** X7.  [getBlockDeviceSize] either fails to open the path and makes no
    other call, or opens it, issues the single request [BLKGETSIZE64] on the
    new handle and closes that handle before returning.  It returns the
    size the request left when errno is 0, and otherwise size 0 with the
    errno as the error: a size never comes with an error. *)
Theorem getBlockDeviceSize_opens_queries_closes (path : string) (w : W)
      (t : list Event) size err w' t' :
    getBlockDeviceSize sys path (w, t) = ((size, err), (w', t')) ->
    (exists e, t' = t ++ [EvOpen path (inr e)]
               /\ err = Some e /\ size = 0)
    \/ (exists g s errno c,
          t' = t ++ [EvOpen path (inl g); EvIoctl g BLKGETSIZE64 s errno;
                     EvClose g c]
          /\ ((errno = 0 /\ err = None /\ size = s)
              \/ (errno <> 0 /\ err = Some (Errno errno) /\ size = 0))).
Proof.
  unfold getBlockDeviceSize, defer, bind, call, ret. cbn [fst snd].
  destruct (os_Open sys path w) as [[g | e] w1]; cbn [fst snd].
  - destruct (sys_ioctl sys g BLKGETSIZE64 w1) as [[s errno] w2].
    cbn [fst snd].
    destruct (Z.eqb_spec errno 0) as [Hz | Hnz]; cbn [negb fst snd];
      destruct (File_Close sys g w2) as [c w3];
      intros H; inversion H; subst; clear H; right;
      eexists g, _, _, c; rewrite <- !app_assoc; cbn [app];
      (split; [ reflexivity | ]).
    + left. auto.
    + right. auto.
  - intros H. inversion H; subst; clear H. left. exists e. auto.
Qed.

End Helpers.

Ltac find_event :=
  cbn [In]; repeat first [ left; reflexivity | right ].

Section Further.

Context {W : Type}.
Variable sys : Sys W.
Variable GetFileMincore :
  os.File -> Z -> W -> (option Mincore * option error) * W.
Variable fname : string.
Variable filter : os.File -> W -> option error * W.

(** X1.  When the target cannot be opened, the call returns at once: the
    record has only [Name] set, the error is the open's error wrapped as
    "could not open file for read: ...", and the open is the only call
    made: the filter is not consulted and nothing is closed. *)
Theorem open_failure_returns_at_once (w : W) e w1 :
    os_Open sys fname w = (inr e, w1) ->
    run sys GetFileMincore fname filter w
    = ((PcStatus_named fname,
        Some (fmt_Errorf "could not open file for read: %v" e)),
       (w1, [EvOpen fname (inr e)])).
Proof.
  intros Hopen. unfold_pipeline. rewrite Hopen. reflexivity.
Qed.

(** X2.  When the [Stat] of the handle fails after the filter accepted, the
    error is wrapped as "could not stat file: ...", the record has only
    [Name] set, and the handle is closed without the path being inspected
    or the provider called. *)
Theorem handle_stat_failure_is_wrapped (w : W) f w1 w2 e w3 :
    os_Open sys fname w = (inl f, w1) ->
    filter f w1 = (None, w2) ->
    File_Stat sys f w2 = (inr e, w3) ->
    exists c w',
      run sys GetFileMincore fname filter w
      = ((PcStatus_named fname,
          Some (fmt_Errorf "could not stat file: %v" e)),
         (w', [EvOpen fname (inl f); EvFilter f None;
               EvFileStat f (inr e); EvClose f c]))
      /\ File_Close sys f w3 = (c, w').
Proof.
  intros Hopen Hfilter Hstat.
  destruct (File_Close sys f w3) as [c w'] eqn:Hclose.
  exists c, w'. unfold_pipeline.
  rewrite Hopen. cbn [fst snd app]. rewrite Hfilter. cbn [fst snd app].
  rewrite Hstat. cbn [fst snd app]. rewrite Hclose. auto.
Qed.

(** X3.  When [os.Stat] of the path fails in [_isBlockDevice], that error is
    returned as it is, without a prefix; the record has only [Name] set,
    no handle is opened for the device size, and the handle is closed. *)
Theorem path_stat_failure_is_passed_on (w : W) f w1 w2 finfo w3 e w4 :
    os_Open sys fname w = (inl f, w1) ->
    filter f w1 = (None, w2) ->
    File_Stat sys f w2 = (inl finfo, w3) ->
    os.IsDir finfo = false ->
    os_Stat sys fname w3 = (inr e, w4) ->
    exists c w',
      run sys GetFileMincore fname filter w
      = ((PcStatus_named fname, Some e),
         (w', [EvOpen fname (inl f); EvFilter f None;
               EvFileStat f (inl finfo); EvStat fname (inr e);
               EvClose f c]))
      /\ File_Close sys f w4 = (c, w').
Proof.
  intros Hopen Hfilter Hstat Hdir Hpath.
  destruct (File_Close sys f w4) as [c w'] eqn:Hclose.
  exists c, w'. unfold_pipeline.
  rewrite Hopen. cbn [fst snd app]. rewrite Hfilter. cbn [fst snd app].
  rewrite Hstat. cbn [fst snd app]. rewrite Hdir. cbn [fst snd app].
  rewrite Hpath. cbn [fst snd app]. rewrite Hclose. auto.
Qed.

(** X4.  When the device size cannot be obtained, the call fails without
    probing.  If the second open fails, its error is returned; if the
    request returns a nonzero errno, that errno is the error and whatever
    the request left in the size is dropped.  Either way the record has
    only [Name] set, and neither the clock nor the provider is called. *)
Theorem device_size_failure_stops_the_probe (w : W) pcs err w' tr :
    run sys GetFileMincore fname filter w = ((pcs, err), (w', tr)) ->
    (forall g req size errno,
        In (EvIoctl g req size errno) tr -> errno <> 0 ->
        err = Some (Errno errno) /\ pcs = PcStatus_named fname
        /\ calls is_now_event tr = 0%nat
        /\ calls is_mincore_event tr = 0%nat)
    /\ (forall first rest e,
          tr = first :: rest -> In (EvOpen fname (inr e)) rest ->
          err = Some e /\ pcs = PcStatus_named fname
          /\ calls is_ioctl_event tr = 0%nat
          /\ calls is_now_event tr = 0%nat
          /\ calls is_mincore_event tr = 0%nat).
Proof.
  intros Hrun. unfold_pipeline. split_on_results Hrun.
  all: split.
  all: try (intros g' req' size' errno' Hq Hne; split_membership Hq;
            try (exfalso;
                 match goal with
                 | Hz : negb (?z =? 0) = false |- _ =>
                     apply negb_false_iff, Z.eqb_eq in Hz; congruence
                 end);
            repeat split; reflexivity).
  all: intros first rest e' Htr Hq; inversion Htr; subst; clear Htr;
       split_membership Hq; repeat split; reflexivity.
Qed.

(** X5.  When the provider returns an error, that error is returned as it
    is and any report that came with it is ignored: the counters and
    [Percent] stay at zero, while [Size], [Timestamp] and [Mtime] keep what
    was resolved before the probe. *)
Theorem provider_error_is_passed_on (w : W) pcs err w' tr f size report e :
    run sys GetFileMincore fname filter w = ((pcs, err), (w', tr)) ->
    In (EvMincore f size (report, Some e)) tr ->
    err = Some e
    /\ Pages pcs = 0 /\ Cached pcs = 0 /\ Uncached pcs = 0
    /\ Percent pcs = float64.zero
    /\ Name pcs = fname /\ Size pcs = size
    /\ exists now finfo,
         In (EvNow now) tr /\ In (EvFileStat f (inl finfo)) tr
         /\ Timestamp pcs = now /\ Mtime pcs = os.ModTime finfo.
Proof.
  intros Hrun Hin. unfold_pipeline. split_on_results Hrun.
  all: split_membership Hin.
  all: repeat (split; [ reflexivity | ]).
  all: eexists _, _; split; [ find_event | split; [ find_event | ] ].
  all: split; reflexivity.
Qed.

(** X8.  On every path [Name] is the path given.  An error never comes
    with counters: whenever the call fails, [Pages], [Cached], [Uncached]
    and [Percent] are zero.  And [Size], [Timestamp] and [Mtime] are set
    only by calls that reached the provider: a call that did not is a
    failure whose record has only [Name] set. *)
Theorem errors_carry_no_counters (w : W) pcs err w' tr :
    run sys GetFileMincore fname filter w = ((pcs, err), (w', tr)) ->
    Name pcs = fname
    /\ (err <> None ->
        Pages pcs = 0 /\ Cached pcs = 0 /\ Uncached pcs = 0
        /\ Percent pcs = float64.zero)
    /\ (calls is_mincore_event tr = 0%nat ->
        err <> None /\ pcs = PcStatus_named fname).
Proof.
  intros Hrun. unfold_pipeline. split_on_results Hrun.
  all: split; [ reflexivity | split ];
    [ intros Herr;
      first [ exfalso; apply Herr; reflexivity | repeat split; reflexivity ]
    | intros Hnone; cbv [calls List.filter List.length is_mincore_event]
                      in Hnone;
      first [ discriminate Hnone
            | split; [ discriminate | reflexivity ] ] ].
Qed.

(** X9.  The filter is the first thing that happens to an opened handle:
    it is called once, on the handle and the kernel state the open
    returned, before any stat; it is not called when the open fails. *)
Theorem filter_runs_once_right_after_open (w : W) pcs err w' tr :
    run sys GetFileMincore fname filter w = ((pcs, err), (w', tr)) ->
    (forall e w1, os_Open sys fname w = (inr e, w1) ->
                  calls is_filter_event tr = 0%nat)
    /\ (forall f w1, os_Open sys fname w = (inl f, w1) ->
          exists rest,
            tr = EvOpen fname (inl f) :: EvFilter f (fst (filter f w1))
                 :: rest
            /\ calls is_filter_event rest = 0%nat).
Proof.
  intros Hrun. unfold_pipeline. split_on_results Hrun.
  all: split;
    [ intros e' w1' Hopen; first [ reflexivity | congruence ]
    | intros f' w1' Hopen; try congruence ].
  all: inversion Hopen; subst; clear Hopen.
  all: match goal with
       | Hf : ?flt ?f ?w1 = _ |- context [?flt ?f ?w1] => rewrite Hf
       end; cbn [fst].
  all: eexists; split; reflexivity.
Qed.

(** X10.  The pipeline has no loop and no retry: in every call the filter,
    the [Stat] of the handle, the [os.Stat] of the path, the device-size
    request, the clock and the provider are each called at most once, the
    path is opened at most twice, and at most ten calls are made. *)
Theorem no_call_is_repeated (w : W) pcs err w' tr :
    run sys GetFileMincore fname filter w = ((pcs, err), (w', tr)) ->
    (calls is_filter_event tr <= 1
     /\ calls is_file_stat_event tr <= 1
     /\ calls is_stat_event tr <= 1
     /\ calls is_ioctl_event tr <= 1
     /\ calls is_now_event tr <= 1
     /\ calls is_mincore_event tr <= 1
     /\ calls is_open_event tr <= 2
     /\ calls is_close_event tr <= calls is_open_event tr
     /\ List.length tr <= 10)%nat.
Proof.
  intros Hrun. unfold_pipeline. split_on_results Hrun.
  all: cbv [calls List.filter List.length is_filter_event
            is_file_stat_event is_stat_event is_ioctl_event is_now_event
            is_mincore_event is_open_event is_close_event].
  all: repeat split; lia.
Qed.

(** X11.  The provider is called on the handle the first open returned,
    over the size recorded in [Size], and the clock is read immediately
    before it: [Timestamp] is the time right before the probe.  The close
    of that handle is the only call after the probe. *)
Theorem probe_follows_the_clock_on_the_first_handle (w : W) pcs err w' tr
      f size r :
    run sys GetFileMincore fname filter w = ((pcs, err), (w', tr)) ->
    In (EvMincore f size r) tr ->
    exists mid now c,
      tr = EvOpen fname (inl f)
           :: mid ++ [EvNow now; EvMincore f size r; EvClose f c]
      /\ Size pcs = size /\ Timestamp pcs = now.
Proof.
  intros Hrun Hin. unfold_pipeline. split_on_results Hrun.
  all: split_membership Hin.
  all: match goal with
       | |- exists mid now c, ?l = _ /\ _ =>
           exists (removelast (removelast (removelast (tl l))))
       end;
       cbn [tl removelast]; eexists _, _;
       split; [ reflexivity | split; reflexivity ].
Qed.

(** X12.  Handles are used only while held and released in reverse order:
    every call on a handle comes between the open that returned it and its
    close, the handle opened for the device size is closed before the
    pipeline's own, and no handle is left open when the call returns. *)
Theorem handles_are_held_then_released (w : W) pcs err w' tr :
    run sys GetFileMincore fname filter w = ((pcs, err), (w', tr)) ->
    held [] tr = Some [].
Proof.
  intros Hrun. unfold_pipeline. split_on_results Hrun.
  all: cbn [held existsb]; rewrite ?File_eqb_refl; cbn [orb];
       rewrite ?File_eqb_refl, ?orb_true_r; reflexivity.
Qed.

(** X14.  For a target that [os.Stat] does not report as a block device,
    the probe runs over the size from the [Stat] of the handle, and
    [Mtime] is the handle's too: of what [os.Stat] of the path returns,
    only the two device bits of the mode are used, not its size, its time
    or its directory bit. *)
Theorem path_stat_only_decides_the_device (w : W) f w1 w2 finfo w3 info w4
      now w5 :
    os_Open sys fname w = (inl f, w1) ->
    filter f w1 = (None, w2) ->
    File_Stat sys f w2 = (inl finfo, w3) ->
    os.IsDir finfo = false ->
    os_Stat sys fname w3 = (inl info, w4) ->
    block_device_mode (os.Mode info) = false ->
    time_Now sys w4 = (now, w5) ->
    exists pcs err c w6 w',
      run sys GetFileMincore fname filter w
      = ((pcs, err),
         (w', [EvOpen fname (inl f); EvFilter f None;
               EvFileStat f (inl finfo); EvStat fname (inl info);
               EvNow now;
               EvMincore f (os.Size finfo)
                         (fst (GetFileMincore f (os.Size finfo) w5));
               EvClose f c]))
      /\ File_Close sys f w6 = (c, w')
      /\ Size pcs = os.Size finfo /\ Mtime pcs = os.ModTime finfo
      /\ Timestamp pcs = now.
Proof.
  intros Hopen Hfilter Hstat Hdir Hpath Hblock Hnow.
  destruct (GetFileMincore f (os.Size finfo) w5) as [[report perr] w6]
    eqn:Hprobe.
  destruct (File_Close sys f w6) as [c w'] eqn:Hclose.
  unfold_pipeline.
  rewrite Hopen. cbn [fst snd app]. rewrite Hfilter. cbn [fst snd app].
  rewrite Hstat. cbn [fst snd app]. rewrite Hdir. cbn [fst snd app].
  rewrite Hpath. cbn [fst snd app]. rewrite Hblock. cbn [fst snd app].
  rewrite Hnow. cbn [fst snd app]. simpl_record.
  rewrite Hprobe. cbn [fst snd app].
  destruct perr as [e | ]; [ | destruct report as [mc | ] ];
    cbn [fst snd app]; rewrite Hclose;
    eexists _, _, c, w6, w'; (split; [ reflexivity | ]);
    repeat split; reflexivity || assumption.
Qed.

(** X15.  The aggregation is guarded by the report being absent, not by its
    counts: when the provider returns a report whose counts are both 0,
    the call succeeds with [Pages = 0] and [Percent] is NaN, the result of
    [0.0 / 0.0]. *)
Theorem empty_report_divides_by_zero (w : W) pcs err w' tr f size mc :
    run sys GetFileMincore fname filter w = ((pcs, err), (w', tr)) ->
    In (EvMincore f size (Some mc, None)) tr ->
    mc_Cached mc = 0 -> mc_Miss mc = 0 ->
    err = None /\ Pages pcs = 0 /\ Cached pcs = 0 /\ Uncached pcs = 0
    /\ float64.is_nan (Percent pcs) = true.
Proof.
  intros Hrun Hin Hc Hm. unfold_pipeline. split_on_results Hrun.
  all: split_membership Hin.
  all: simpl_record; rewrite Hc, Hm.
  all: repeat split; reflexivity.
Qed.

(** X13.  A target all of whose pages are resident reports exactly 100:
    when a call succeeds with [Cached > 0] and [Uncached = 0], [Percent]
    is the [float64] 100.0, with no rounding error whatever the number of
    pages. *)
Theorem fully_cached_is_exactly_100 (w : W) pcs w' tr :
    run sys GetFileMincore fname filter w = ((pcs, None), (w', tr)) ->
    0 < Cached pcs -> Uncached pcs = 0 ->
    Pages pcs = Cached pcs /\ Percent pcs = float64.of_int 100.
Proof.
  intros Hrun. unfold_pipeline. split_on_results Hrun.
  all: intros Hc Hu; try (exfalso; lia).
  all: match goal with
       | |- context [goint.add (goint.of_Z ?c) (goint.of_Z ?m)] =>
           pose proof (wrap_range c) as Hrange;
           fold (goint.of_Z c) in Hrange;
           assert (Hsum : goint.add (goint.of_Z c) (goint.of_Z m)
                          = goint.of_Z c)
             by (rewrite Hu; unfold goint.add; rewrite Z.add_0_r;
                 apply wrap_in_range, Hrange);
           rewrite Hsum;
           fold (percent (goint.of_Z c) (goint.of_Z c));
           set (C := goint.of_Z c) in *
       end.
  all: unfold goint.in_range, goint.max_int in Hrange;
       change goint.half with (2 ^ 63) in Hrange.
  all: split; [ reflexivity | apply percent_of_all; lia ].
Qed.

(** X16.  A target none of whose pages is resident reports exactly 0: when
    a call succeeds with [Cached = 0] and [Pages > 0], [Percent] is
    positive zero. *)
Theorem nothing_cached_is_exactly_0 (w : W) pcs w' tr :
    run sys GetFileMincore fname filter w = ((pcs, None), (w', tr)) ->
    Cached pcs = 0 -> 0 < Pages pcs ->
    Percent pcs = float64.zero.
Proof.
  intros Hrun. unfold_pipeline. split_on_results Hrun.
  all: intros Hc Hp; try (exfalso; lia).
  all: match goal with
       | |- context [goint.add (goint.of_Z ?c) (goint.of_Z ?m)] =>
           pose proof (wrap_range (goint.of_Z c + goint.of_Z m)) as Hrange;
           fold (goint.add (goint.of_Z c) (goint.of_Z m)) in Hrange;
           fold (percent (goint.of_Z c)
                         (goint.add (goint.of_Z c) (goint.of_Z m)));
           rewrite Hc in *;
           set (P := goint.add 0 (goint.of_Z m)) in *
       end.
  all: unfold goint.in_range, goint.max_int in Hrange;
       change goint.half with (2 ^ 63) in Hrange.
  all: apply percent_of_none; lia.
Qed.

End Further.

(** ** The further properties at work *)

Lemma open_failure_returns_at_once_witness :
  sim.probe "/nope" sim.accept
  = ((PcStatus_named "/nope",
      Some (fmt_Errorf "could not open file for read: %v"
                       (PathError "open" "/nope" sim.ENOENT))),
     (sim.disk, [EvOpen "/nope" (inr (PathError "open" "/nope" sim.ENOENT))])).
Proof.
  apply (open_failure_returns_at_once sim.kernel sim.GetFileMincore
           "/nope" sim.accept sim.disk).
  reflexivity.
Defined.

(** The [Stat] of the handle fails with an I/O error. *)
Lemma handle_stat_failure_is_wrapped_witness :
  script.failure
    (script.with_fstat script.healthy
       (inr (PathError "stat" "/dev/sdb" script.EIO)))
  = Some (fmt_Errorf "could not stat file: %v"
                     (PathError "stat" "/dev/sdb" script.EIO)).
Proof.
  destruct (handle_stat_failure_is_wrapped
              (script.kernel
                 (script.with_fstat script.healthy
                    (inr (PathError "stat" "/dev/sdb" script.EIO))))
              (script.provider
                 (script.with_fstat script.healthy
                    (inr (PathError "stat" "/dev/sdb" script.EIO))))
              "/dev/sdb"
              (script.filter
                 (script.with_fstat script.healthy
                    (inr (PathError "stat" "/dev/sdb" script.EIO))))
              0%nat (os.mkFile 3) 1%nat 1%nat
              (PathError "stat" "/dev/sdb" script.EIO) 1%nat
              eq_refl eq_refl eq_refl)
    as (c & w' & Hrun & _).
  unfold script.failure, script.probe. rewrite Hrun. reflexivity.
Defined.

(** The path has gone by the time [_isBlockDevice] looks at it. *)
Lemma path_stat_failure_is_passed_on_witness :
  script.failure
    (script.with_stat script.healthy
       (inr (PathError "stat" "/dev/sdb" script.ENOENT)))
  = Some (PathError "stat" "/dev/sdb" script.ENOENT).
Proof.
  destruct (path_stat_failure_is_passed_on
              (script.kernel
                 (script.with_stat script.healthy
                    (inr (PathError "stat" "/dev/sdb" script.ENOENT))))
              (script.provider
                 (script.with_stat script.healthy
                    (inr (PathError "stat" "/dev/sdb" script.ENOENT))))
              "/dev/sdb"
              (script.filter
                 (script.with_stat script.healthy
                    (inr (PathError "stat" "/dev/sdb" script.ENOENT))))
              0%nat (os.mkFile 3) 1%nat 1%nat script.regular_info 1%nat
              (PathError "stat" "/dev/sdb" script.ENOENT) 1%nat
              eq_refl eq_refl eq_refl eq_refl eq_refl)
    as (c & w' & Hrun & _).
  unfold script.failure, script.probe. rewrite Hrun. reflexivity.
Defined.

(** The request fails with ENOTTY after leaving 4096 in the size, and the
    second open fails for want of descriptors. *)
Lemma device_size_failure_stops_the_probe_witness :
  (script.failure (script.with_ioctl script.device (4096, script.ENOTTY))
   = Some (Errno script.ENOTTY)
   /\ Size (script.record
              (script.with_ioctl script.device (4096, script.ENOTTY))) = 0)
  /\ script.failure
       (script.with_open_again script.device
          (inr (PathError "open" "/dev/sdb" script.EMFILE)))
     = Some (PathError "open" "/dev/sdb" script.EMFILE).
Proof.
  split.
  - destruct (device_size_failure_stops_the_probe _ _ _ _ _ _ _ _ _
                (script_eq
                   (script.with_ioctl script.device (4096, script.ENOTTY))))
      as [Hioctl _].
    destruct (Hioctl (os.mkFile 4) BLKGETSIZE64 4096 script.ENOTTY)
      as (Herr & Hpcs & _).
    + vm_compute. auto 10.
    + discriminate.
    + split; [ exact Herr | rewrite Hpcs; reflexivity ].
  - destruct (device_size_failure_stops_the_probe _ _ _ _ _ _ _ _ _
                (script_eq
                   (script.with_open_again script.device
                      (inr (PathError "open" "/dev/sdb" script.EMFILE)))))
      as [_ Hopen].
    destruct (Hopen _ _ (PathError "open" "/dev/sdb" script.EMFILE)
                eq_refl)
      as (Herr & _).
    + vm_compute. auto 10.
    + exact Herr.
Defined.

(** The provider hands back a report and an error at once. *)
Lemma provider_error_is_passed_on_witness :
  script.failure
    (script.with_mincore script.healthy
       (Some (mkMincore 2 0), Some (OtherError "could not mmap")))
  = Some (OtherError "could not mmap")
  /\ Pages (script.record
              (script.with_mincore script.healthy
                 (Some (mkMincore 2 0), Some (OtherError "could not mmap"))))
     = 0
  /\ Size (script.record
             (script.with_mincore script.healthy
                (Some (mkMincore 2 0), Some (OtherError "could not mmap"))))
     = 8192.
Proof.
  destruct (provider_error_is_passed_on _ _ _ _ _ _ _ _ _
              (os.mkFile 3) 8192 (Some (mkMincore 2 0))
              (OtherError "could not mmap")
              (script_eq
                 (script.with_mincore script.healthy
                    (Some (mkMincore 2 0),
                     Some (OtherError "could not mmap")))))
    as (Herr & Hpages & _ & _ & _ & _ & Hsize & _).
  - vm_compute. auto 10.
  - auto.
Defined.

(** A block device has the device bit and not the character bit; a
    character device is not taken for one. *)
Lemma isBlockDevice_reads_two_mode_bits_witness :
  (exists info,
      fst (os_Stat (script.kernel script.device) "/dev/sdb" 0%nat) = inl info
      /\ Z.testbit (os.Mode info) 26 = true
      /\ Z.testbit (os.Mode info) 21 = false)
  /\ fst (fst (_isBlockDevice
                 (script.kernel
                    (script.with_stat script.device
                       (inl script.char_device_info)))
                 "/dev/tty" (0%nat, []))) = false.
Proof.
  split; [ | reflexivity ].
  destruct (isBlockDevice_reads_two_mode_bits
              (script.kernel script.device) "/dev/sdb" 0%nat [] true None
              0%nat [EvStat "/dev/sdb" (inl script.device_info)] eq_refl)
    as (Hbits & _).
  apply Hbits. reflexivity.
Defined.

Lemma getBlockDeviceSize_opens_queries_closes_witness :
  exists g c,
    snd (snd (getBlockDeviceSize (script.kernel script.device) "/dev/sdb"
                (1%nat, [])))
    = [EvOpen "/dev/sdb" (inl g); EvIoctl g BLKGETSIZE64 1048576 0;
       EvClose g c].
Proof.
  destruct (getBlockDeviceSize_opens_queries_closes
              (script.kernel script.device) "/dev/sdb" 1%nat []
              1048576 None 2%nat
              [EvOpen "/dev/sdb" (inl (os.mkFile 4));
               EvIoctl (os.mkFile 4) BLKGETSIZE64 1048576 0;
               EvClose (os.mkFile 4) None] eq_refl)
    as [(e & _ & Herr & _) | (g & s & errno & c & Htr & _)].
  - discriminate Herr.
  - exists (os.mkFile 4), None. reflexivity.
Defined.

Lemma errors_carry_no_counters_witness :
  Name (sim.record "/data" sim.accept) = "/data"
  /\ Pages (sim.record "/data" sim.accept) = 0
  /\ sim.record "/dev/sdb" sim.reject = PcStatus_named "/dev/sdb".
Proof.
  destruct (errors_carry_no_counters _ _ _ _ _ _ _ _ _
              (probe_eq "/data" sim.accept))
    as (Hname & Hzero & _).
  destruct (errors_carry_no_counters _ _ _ _ _ _ _ _ _
              (probe_eq "/dev/sdb" sim.reject))
    as (_ & _ & Hbare).
  split; [ exact Hname | split ].
  - apply Hzero. discriminate.
  - apply Hbare. reflexivity.
Defined.

Lemma filter_runs_once_right_after_open_witness :
  exists rest,
    sim.trace "/dev/sdb" sim.accept
    = EvOpen "/dev/sdb" (inl (os.mkFile 3))
      :: EvFilter (os.mkFile 3) None :: rest
    /\ calls is_filter_event rest = 0%nat.
Proof.
  destruct (filter_runs_once_right_after_open _ _ _ _ _ _ _ _ _
              (probe_eq "/dev/sdb" sim.accept))
    as (_ & Hfirst).
  apply (Hfirst (os.mkFile 3) (snd (sim.Open "/dev/sdb" sim.disk))).
  reflexivity.
Defined.

Lemma no_call_is_repeated_witness :
  (calls is_open_event (sim.trace "/dev/sdb" sim.accept) <= 2
   /\ List.length (sim.trace "/dev/sdb" sim.accept) <= 10)%nat.
Proof.
  destruct (no_call_is_repeated _ _ _ _ _ _ _ _ _
              (probe_eq "/dev/sdb" sim.accept))
    as (_ & _ & _ & _ & _ & _ & Hopen & _ & Hlen).
  split; assumption.
Defined.

Lemma probe_follows_the_clock_on_the_first_handle_witness :
  exists mid c,
    sim.trace "/dev/sdb" sim.accept
    = EvOpen "/dev/sdb" (inl (os.mkFile 3))
      :: mid ++ [EvNow 1700000100;
                 EvMincore (os.mkFile 3) 1048576
                           (Some (mkMincore 0 256), None);
                 EvClose (os.mkFile 3) c]
    /\ Timestamp (sim.record "/dev/sdb" sim.accept) = 1700000100.
Proof.
  destruct (probe_follows_the_clock_on_the_first_handle _ _ _ _ _ _ _ _ _
              (os.mkFile 3) 1048576 (Some (mkMincore 0 256), None)
              (probe_eq "/dev/sdb" sim.accept))
    as (mid & now & c & Htr & _ & Hnow).
  - vm_compute. auto 10.
  - exists mid, c. split; [ | reflexivity ].
    rewrite Htr. rewrite <- Hnow. reflexivity.
Defined.

Lemma handles_are_held_then_released_witness :
  held [] (sim.trace "/dev/sdb" sim.accept) = Some [].
Proof.
  exact (handles_are_held_then_released _ _ _ _ _ _ _ _ _
           (probe_eq "/dev/sdb" sim.accept)).
Defined.

Lemma fully_cached_is_exactly_100_witness :
  Pages (sim.record "/data/hot" sim.accept) = 2
  /\ Percent (sim.record "/data/hot" sim.accept) = float64.of_int 100.
Proof.
  destruct (fully_cached_is_exactly_100 _ _ _ _ _ _ _ _
              (probe_eq "/data/hot" sim.accept))
    as (_ & Hpct).
  - reflexivity.
  - reflexivity.
  - split; [ reflexivity | exact Hpct ].
Defined.

Lemma nothing_cached_is_exactly_0_witness :
  Pages (sim.record "/dev/sdb" sim.accept) = 256
  /\ Percent (sim.record "/dev/sdb" sim.accept) = float64.zero.
Proof.
  split; [ reflexivity | ].
  apply (nothing_cached_is_exactly_0 _ _ _ _ _ _ _ _
           (probe_eq "/dev/sdb" sim.accept)); reflexivity.
Defined.

(** The path now names a directory of another size and time, while the
    handle is still the 8192-byte file. *)
Lemma path_stat_only_decides_the_device_witness :
  script.failure
    (script.with_stat script.healthy (inl script.directory_info)) = None
  /\ Size (script.record
             (script.with_stat script.healthy (inl script.directory_info)))
     = 8192
  /\ Mtime (script.record
              (script.with_stat script.healthy (inl script.directory_info)))
     = 1700000000.
Proof.
  destruct (path_stat_only_decides_the_device
              (script.kernel
                 (script.with_stat script.healthy
                    (inl script.directory_info)))
              (script.provider
                 (script.with_stat script.healthy
                    (inl script.directory_info)))
              "/dev/sdb"
              (script.filter
                 (script.with_stat script.healthy
                    (inl script.directory_info)))
              0%nat (os.mkFile 3) 1%nat 1%nat script.regular_info 1%nat
              script.directory_info 1%nat 1700000100 1%nat
              eq_refl eq_refl eq_refl eq_refl eq_refl eq_refl eq_refl)
    as (pcs & err & c & w6 & w' & Hrun & _ & Hsize & Hmtime & _).
  unfold script.failure, script.record, script.probe.
  rewrite Hrun. cbn [fst snd].
  split; [ | split; assumption ].
  vm_compute in Hrun. congruence.
Defined.

Lemma empty_report_divides_by_zero_witness :
  script.failure
    (script.with_mincore script.healthy (Some (mkMincore 0 0), None))
  = None
  /\ float64.is_nan
       (Percent
          (script.record
             (script.with_mincore script.healthy
                (Some (mkMincore 0 0), None))))
     = true.
Proof.
  destruct (empty_report_divides_by_zero _ _ _ _ _ _ _ _ _
              (os.mkFile 3) 8192 (mkMincore 0 0)
              (script_eq
                 (script.with_mincore script.healthy
                    (Some (mkMincore 0 0), None))))
    as (Herr & _ & _ & _ & Hnan).
  - vm_compute. auto 10.
  - reflexivity.
  - reflexivity.
  - auto.
Defined.
